(** * The combat core of the combatgame package

    A shallow embedding of [combatgame/characters.py], [combatgame/skills.py],
    [combatgame/enemies.py] and [combatgame/game_manager.py].

    Python objects live in a heap indexed by references, so that a method
    called with two references (an attacker and its target) sees the same
    object when the references are equal.  Python integers are unbounded and
    are modelled by [Z].  A method is a function from the heap to an outcome:
    either a returned value or a raised exception, each with the heap as the
    method left it. *)

From Stdlib Require Import ZArith Lia Ascii String.
From Stdlib Require SpecFloat.
From stdpp Require Import base functions gmap strings list pretty.

Local Open Scope Z_scope.

(** ** Data model *)

(** The two effect classes nested in [SkillEffects]. *)
Module SkillEffects.
Inductive cls := Invincible | ReflectiveShield.

#[global] Instance cls_eq_dec : EqDecision cls.
Proof. solve_decision. Defined.
End SkillEffects.

(** An effect instance: the attributes set by the two [__init__] methods. *)
Record Effect := {
  effect_class : SkillEffects.cls;
  effect_name : string;
  effect_description : string;
  use_count : Z;
  effect_belongs_to : string
}.

(** [SkillEffects.Invincible()] *)
Definition new_Invincible : Effect :=
  {| effect_class := SkillEffects.Invincible;
     effect_name := "Invincible";
     effect_description := "Blocks any incoming attacks.";
     use_count := 1;
     effect_belongs_to := "Illusionary Aura" |}.

(** [SkillEffects.ReflectiveShield()] *)
Definition new_ReflectiveShield : Effect :=
  {| effect_class := SkillEffects.ReflectiveShield;
     effect_name := "Reflective Shield";
     effect_description := "Reflects any incoming attacks back to the enemies.";
     use_count := 1;
     effect_belongs_to := "Reflective Shield" |}.

Definition set_use_count (v : Z) (e : Effect) : Effect :=
  {| effect_class := effect_class e;
     effect_name := effect_name e;
     effect_description := effect_description e;
     use_count := v;
     effect_belongs_to := effect_belongs_to e |}.

(** The skill classes nested in [Skills], and [BaseSkill] itself, whose
    [use] is not implemented. *)
Module Skills.
Inductive cls :=
| BaseSkill
| WhiskerGuard | ClawSwipe
| IllusionaryAura | ReflectiveShield
| HealingPurr | LuckyCharm
| PurrfectStrike | CripplingStrike.
End Skills.

(** A skill instance.  The costs, [require_target] and [belongs_to] come from
    [skill_attributes.csv]; [description] and [message_displays] are set by
    the subclass constructor. *)
Record Skill := {
  skill_class : Skills.cls;
  skill_name : string;
  description : string;
  magic_points_cost : Z;
  speed_points_cost : Z;
  require_target : bool;
  message_displays : list string;
  belongs_to : string
}.

(** The classes of [characters.py] and [enemies.py]. *)
Inductive character_class :=
| BaseCharacter | Tank | MirrorMage | Healer | Assassin | EnemyCharacter.

#[global] Instance character_class_eq_dec : EqDecision character_class.
Proof. solve_decision. Defined.

(** A character instance.  An attribute that an instance may lack is an
    option: [EnemyCharacter.__init__] deletes [magic_points], [skills] and
    [active_effects], and the two maxima exist only once a job class (or an
    enemy row) has been assigned. *)
Record Character := {
  class_of : character_class;
  name : string;
  job_class : string;
  health_points : Z;
  attack_points : Z;
  defense_points : Z;
  speed_points : Z;
  magic_points : option Z;
  luck : Z;
  skills : option (list Skill);
  active_effects : option (list Effect);
  max_health_points : option Z;
  max_defense_points : option Z;
  character_image : string;
  ascii_art : list string;
  starting_column_position : Z
}.

(** [isinstance(c, EnemyCharacter)] *)
Definition is_enemy (c : Character) : bool :=
  bool_decide (class_of c = EnemyCharacter).

(** Attribute assignment, one function per attribute that the modelled
    methods assign.  Assigning a deleted attribute creates it again. *)
Definition set_job_class (v : string) (c : Character) : Character :=
  {| class_of := class_of c; name := name c; job_class := v;
     health_points := health_points c; attack_points := attack_points c;
     defense_points := defense_points c; speed_points := speed_points c;
     magic_points := magic_points c; luck := luck c; skills := skills c;
     active_effects := active_effects c;
     max_health_points := max_health_points c;
     max_defense_points := max_defense_points c;
     character_image := character_image c; ascii_art := ascii_art c;
     starting_column_position := starting_column_position c |}.

Definition set_health_points (v : Z) (c : Character) : Character :=
  {| class_of := class_of c; name := name c; job_class := job_class c;
     health_points := v; attack_points := attack_points c;
     defense_points := defense_points c; speed_points := speed_points c;
     magic_points := magic_points c; luck := luck c; skills := skills c;
     active_effects := active_effects c;
     max_health_points := max_health_points c;
     max_defense_points := max_defense_points c;
     character_image := character_image c; ascii_art := ascii_art c;
     starting_column_position := starting_column_position c |}.

Definition set_attack_points (v : Z) (c : Character) : Character :=
  {| class_of := class_of c; name := name c; job_class := job_class c;
     health_points := health_points c; attack_points := v;
     defense_points := defense_points c; speed_points := speed_points c;
     magic_points := magic_points c; luck := luck c; skills := skills c;
     active_effects := active_effects c;
     max_health_points := max_health_points c;
     max_defense_points := max_defense_points c;
     character_image := character_image c; ascii_art := ascii_art c;
     starting_column_position := starting_column_position c |}.

Definition set_defense_points (v : Z) (c : Character) : Character :=
  {| class_of := class_of c; name := name c; job_class := job_class c;
     health_points := health_points c; attack_points := attack_points c;
     defense_points := v; speed_points := speed_points c;
     magic_points := magic_points c; luck := luck c; skills := skills c;
     active_effects := active_effects c;
     max_health_points := max_health_points c;
     max_defense_points := max_defense_points c;
     character_image := character_image c; ascii_art := ascii_art c;
     starting_column_position := starting_column_position c |}.

Definition set_speed_points (v : Z) (c : Character) : Character :=
  {| class_of := class_of c; name := name c; job_class := job_class c;
     health_points := health_points c; attack_points := attack_points c;
     defense_points := defense_points c; speed_points := v;
     magic_points := magic_points c; luck := luck c; skills := skills c;
     active_effects := active_effects c;
     max_health_points := max_health_points c;
     max_defense_points := max_defense_points c;
     character_image := character_image c; ascii_art := ascii_art c;
     starting_column_position := starting_column_position c |}.

Definition set_magic_points (v : Z) (c : Character) : Character :=
  {| class_of := class_of c; name := name c; job_class := job_class c;
     health_points := health_points c; attack_points := attack_points c;
     defense_points := defense_points c; speed_points := speed_points c;
     magic_points := Some v; luck := luck c; skills := skills c;
     active_effects := active_effects c;
     max_health_points := max_health_points c;
     max_defense_points := max_defense_points c;
     character_image := character_image c; ascii_art := ascii_art c;
     starting_column_position := starting_column_position c |}.

Definition set_luck (v : Z) (c : Character) : Character :=
  {| class_of := class_of c; name := name c; job_class := job_class c;
     health_points := health_points c; attack_points := attack_points c;
     defense_points := defense_points c; speed_points := speed_points c;
     magic_points := magic_points c; luck := v; skills := skills c;
     active_effects := active_effects c;
     max_health_points := max_health_points c;
     max_defense_points := max_defense_points c;
     character_image := character_image c; ascii_art := ascii_art c;
     starting_column_position := starting_column_position c |}.

Definition set_active_effects (v : list Effect) (c : Character) : Character :=
  {| class_of := class_of c; name := name c; job_class := job_class c;
     health_points := health_points c; attack_points := attack_points c;
     defense_points := defense_points c; speed_points := speed_points c;
     magic_points := magic_points c; luck := luck c; skills := skills c;
     active_effects := Some v;
     max_health_points := max_health_points c;
     max_defense_points := max_defense_points c;
     character_image := character_image c; ascii_art := ascii_art c;
     starting_column_position := starting_column_position c |}.

Definition set_max_health_points (v : Z) (c : Character) : Character :=
  {| class_of := class_of c; name := name c; job_class := job_class c;
     health_points := health_points c; attack_points := attack_points c;
     defense_points := defense_points c; speed_points := speed_points c;
     magic_points := magic_points c; luck := luck c; skills := skills c;
     active_effects := active_effects c;
     max_health_points := Some v;
     max_defense_points := max_defense_points c;
     character_image := character_image c; ascii_art := ascii_art c;
     starting_column_position := starting_column_position c |}.

Definition set_max_defense_points (v : Z) (c : Character) : Character :=
  {| class_of := class_of c; name := name c; job_class := job_class c;
     health_points := health_points c; attack_points := attack_points c;
     defense_points := defense_points c; speed_points := speed_points c;
     magic_points := magic_points c; luck := luck c; skills := skills c;
     active_effects := active_effects c;
     max_health_points := max_health_points c;
     max_defense_points := Some v;
     character_image := character_image c; ascii_art := ascii_art c;
     starting_column_position := starting_column_position c |}.

Definition set_ascii_art (v : list string) (c : Character) : Character :=
  {| class_of := class_of c; name := name c; job_class := job_class c;
     health_points := health_points c; attack_points := attack_points c;
     defense_points := defense_points c; speed_points := speed_points c;
     magic_points := magic_points c; luck := luck c; skills := skills c;
     active_effects := active_effects c;
     max_health_points := max_health_points c;
     max_defense_points := max_defense_points c;
     character_image := character_image c; ascii_art := v;
     starting_column_position := starting_column_position c |}.

(** ** The heap and the method monad *)

(** A reference to a character object. *)
Definition ref := nat.

(** The heap gives every reference its object; an assignment through a
    reference changes the object at that reference only. *)
Definition heap := ref -> Character.

Definition heap_update (r : ref) (set : Character -> Character) (h : heap)
    : heap :=
  fun r' => if decide (r = r') then set (h r') else h r'.

(** The exceptions the modelled code can raise. *)
Inductive exn :=
| AttributeError (attr : string)
| KeyError (key : string)
| IndexError
| ValueError
| NotImplementedError.

Inductive outcome (A : Type) :=
| Ret (a : A) (h : heap)
| Raise (e : exn) (h : heap).
Arguments Ret {A} a h.
Arguments Raise {A} e h.

Definition M (A : Type) : Type := heap -> outcome A.

Definition ret {A} (a : A) : M A := fun h => Ret a h.

Definition raise {A} (e : exn) : M A := fun h => Raise e h.

Definition bind {A B} (m : M A) (k : A -> M B) : M B :=
  fun h => match m h with
           | Ret a h' => k a h'
           | Raise e h' => Raise e h'
           end.

#[global] Instance M_ret : MRet M := @ret.
#[global] Instance M_bind : MBind M := fun A B k m => bind m k.

(** [r.attr] for an attribute every instance has. *)
Definition getattr {A} (r : ref) (attr : Character -> A) : M A :=
  fun h => Ret (attr (h r)) h.

(** [r.attr] for an attribute an instance may lack. *)
Definition getattr_opt {A} (r : ref) (attr_name : string)
    (attr : Character -> option A) : M A :=
  fun h => match attr (h r) with
           | Some a => Ret a h
           | None => Raise (AttributeError attr_name) h
           end.

(** [r.attr = v], with [set v] the assignment of that attribute. *)
Definition setattr (r : ref) (set : Character -> Character) : M unit :=
  fun h => Ret tt (heap_update r set h).

(** [d[key]] on a dictionary with string keys. *)
Definition getitem {A} (d : gmap string A) (key : string) : M A :=
  fun h => match d !! key with
           | Some a => Ret a h
           | None => Raise (KeyError key) h
           end.

(** ** characters.py *)

(** A row of [job_class_attributes.csv] (and of [enemy_attributes.csv]), with
    its columns as [int(...)] reads them. *)
Record AttributeRow := {
  HP : Z; DP : Z; AP : Z; SP : Z; MP : Z; Luck : Z
}.

Section Catalog.
(** The dictionaries loaded at import time: [job_class_attributes] of
    [characters.py] and [ascii_arts] of [combatgame.resources.ascii_art]. *)
Variable job_class_attributes : gmap string AttributeRow.
Variable ascii_arts : gmap string (list string).

Definition _assign_job_class_attributes (self : ref) (job_class_name : string)
    : M unit :=
  attr ← getitem job_class_attributes job_class_name;
  setattr self (set_job_class job_class_name);;
  setattr self (set_max_health_points (HP attr));;
  setattr self (set_max_defense_points (DP attr));;
  setattr self (set_attack_points (AP attr));;
  setattr self (set_speed_points (SP attr));;
  setattr self (set_magic_points (MP attr));;
  setattr self (set_luck (Luck attr));;
  art ← getitem ascii_arts job_class_name;
  setattr self (set_ascii_art art);;
  max_hp ← getattr_opt self "max_health_points" max_health_points;
  setattr self (set_health_points max_hp);;
  max_dp ← getattr_opt self "max_defense_points" max_defense_points;
  setattr self (set_defense_points max_dp).

Definition restore_stats (self : ref) : M unit :=
  jc ← getattr self job_class;
  _assign_job_class_attributes self jc.
End Catalog.

(** [self.is_alive()] *)
Definition is_alive (self : ref) : M bool :=
  hp ← getattr self health_points;
  mret (bool_decide (0 < hp)).

(** [self.get_active_effect(effect)]: the first item of [active_effects] that
    is an instance of the class [effect], or [None]; [None] as well when the
    instance has no [active_effects].  The item is returned with its position
    in the list, which identifies the effect object for the assignments and
    the [remove] that follow in [basic_attack]. *)
Definition get_active_effect (self : ref) (effect : SkillEffects.cls)
    : M (option (nat * Effect)) :=
  fun h => match active_effects (h self) with
           | Some items =>
               Ret (list_find (fun item => effect_class item = effect) items) h
           | None => Ret None h
           end.

(** [effect.use_count -= 1] for the effect at position [i] of
    [owner.active_effects]. *)
Definition decrement_use_count (owner : ref) (i : nat) : M unit :=
  items ← getattr_opt owner "active_effects" active_effects;
  setattr owner
    (set_active_effects
       (alter (fun e => set_use_count (use_count e - 1) e) i items)).

(** [effect.use_count] read back from the list. *)
Definition read_use_count (owner : ref) (i : nat) : M Z :=
  items ← getattr_opt owner "active_effects" active_effects;
  match items !! i with
  | Some e => mret (use_count e)
  | None => raise IndexError
  end.

(** [owner.active_effects.remove(effect)] for the effect at position [i]:
    effects compare by identity, and [i] is the first position holding it. *)
Definition remove_effect (owner : ref) (i : nat) : M unit :=
  items ← getattr_opt owner "active_effects" active_effects;
  setattr owner (set_active_effects (delete i items)).

(** [SkillEffects.ReflectiveShield.take_effect(attacker, damage)] *)
Definition take_effect (attacker : ref) (damage : Z) : M string :=
  dp ← getattr attacker defense_points;
  let defense_points_damage := Z.min damage dp in
  let health_points_damage := Z.max 0 (damage - dp) in
  setattr attacker (set_defense_points (dp - defense_points_damage));;
  hp ← getattr attacker health_points;
  setattr attacker (set_health_points (hp - health_points_damage));;
  attacker_name ← getattr attacker name;
  mret (attacker_name +:+ "'s attack was met with a defensive shield, "
        +:+ "causing the damage to reflect back to themselves. "
        +:+ "(-" +:+ pretty defense_points_damage +:+ "DP and -"
        +:+ pretty health_points_damage +:+ "HP)").

(** The three logs of an attack that reaches the target. *)
Definition critical_log (self_name target_name : string) (total_damage : Z)
    : string :=
  self_name +:+ " lands a CRITICAL hit and dealt " +:+ pretty total_damage
  +:+ "HP on " +:+ target_name +:+ "!".

Definition attacked_log (self_name target_name : string) (total_damage : Z)
    : string :=
  self_name +:+ " attacked " +:+ target_name +:+ ", dealing "
  +:+ pretty total_damage +:+ "HP.".

Definition blocked_log (self_name target_name : string) : string :=
  self_name +:+ " tried attacking " +:+ target_name
  +:+ " but cant get through its defense!".

(** The log of an attack stopped by an Invincible effect. *)
Definition rejected_log (self_name target_name effect_skill : string)
    : string :=
  self_name +:+ "'s attack was REJECTED due to " +:+ target_name +:+ "'s"
  +:+ " " +:+ effect_skill +:+ ".".

(** [self.basic_attack(target)].  [roll] is the value that
    [random.randint(1, 100)] returns when the attack reaches the roll. *)
Definition basic_attack (self target : ref) (roll : Z) : M string :=
  sp ← getattr self speed_points;
  setattr self (set_speed_points (sp - 1));;
  invincible ← get_active_effect target SkillEffects.Invincible;
  match invincible with
  | Some (i, effect) =>
      self_name ← getattr self name;
      target_name ← getattr target name;
      let log := rejected_log self_name target_name (effect_belongs_to effect) in
      decrement_use_count target i;;
      uses ← read_use_count target i;
      (if bool_decide (uses <= 0) then remove_effect target i else mret tt);;
      mret log
  | None =>
      shield ← get_active_effect target SkillEffects.ReflectiveShield;
      match shield with
      | Some (i, effect) =>
          ap ← getattr self attack_points;
          log ← take_effect self ap;
          decrement_use_count target i;;
          uses ← read_use_count target i;
          (if bool_decide (uses = 0) then remove_effect target i else mret tt);;
          mret log
      | None =>
          self_luck ← getattr self luck;
          let critical_hit := bool_decide (roll <= self_luck) in
          self_name ← getattr self name;
          target_name ← getattr target name;
          ap ← getattr self attack_points;
          target_dp ← getattr target defense_points;
          let total_damage :=
            if critical_hit then 2 * ap else Z.max (ap - target_dp) 0 in
          let log :=
            if critical_hit then critical_log self_name target_name total_damage
            else if bool_decide (total_damage = 0)
                 then blocked_log self_name target_name
                 else attacked_log self_name target_name total_damage in
          hp ← getattr target health_points;
          setattr target (set_health_points (hp - total_damage));;
          dp ← getattr target defense_points;
          setattr target (set_defense_points (dp - 1));;
          mret log
      end
  end.

(** [self.heal()].  [hp_increase] is the value of [random.randint(1, 10)]. *)
Definition heal (self : ref) (hp_increase : Z) : M string :=
  sp ← getattr self speed_points;
  setattr self (set_speed_points (sp - 1));;
  hp ← getattr self health_points;
  setattr self (set_health_points (hp + hp_increase));;
  self_name ← getattr self name;
  mret (self_name +:+ " used heal and gained " +:+ pretty hp_increase +:+ "HP.").

(** [self.check_skill_cost(skill)] *)
Definition check_skill_cost (self : ref) (skill : Skill) : M (bool * string) :=
  sp ← getattr self speed_points;
  if bool_decide (sp < speed_points_cost skill) then
    mret (false, "Not enough speed points. You need "
                 +:+ pretty (speed_points_cost skill) +:+ " but only "
                 +:+ "have " +:+ pretty sp +:+ ".")
  else
    mp ← getattr_opt self "magic_points" magic_points;
    if bool_decide (mp < magic_points_cost skill) then
      mret (false, "Not enough magic points. You need "
                   +:+ pretty (magic_points_cost skill) +:+ " but only "
                   +:+ "have " +:+ pretty mp +:+ ".")
    else mret (true, "").

(** ** skills.py *)

(** [template.format] with keyword arguments [fields], for templates whose braces only delimit field
    names, as in every [message_displays] of [skills.py].  A field the
    template names and [fields] lacks raises [KeyError]. *)
Fixpoint format_from (fields : gmap string string) (template : string)
    (field : option string) : exn + string :=
  match template, field with
  | EmptyString, None => inr EmptyString
  | EmptyString, Some _ => inl ValueError
  | String c rest, None =>
      if bool_decide (c = "{"%char) then format_from fields rest (Some EmptyString)
      else match format_from fields rest None with
           | inr s => inr (String c s)
           | inl e => inl e
           end
  | String c rest, Some key =>
      if bool_decide (c = "}"%char) then
        match fields !! key with
        | Some v => match format_from fields rest None with
                    | inr s => inr (v +:+ s)
                    | inl e => inl e
                    end
        | None => inl (KeyError key)
        end
      else format_from fields rest (Some (key +:+ String c EmptyString))
  end.

Definition format (template : string) (fields : gmap string string) : M string :=
  match format_from fields template None with
  | inr s => mret s
  | inl e => raise e
  end.

(** [random.choice(seq)], with [pick] the position the call drew.  The empty
    sequence has no position to draw and raises [IndexError]. *)
Definition choice {A} (seq : list A) (pick : nat) : M A :=
  match seq !! pick with
  | Some x => mret x
  | None => raise IndexError
  end.

(** The first access to an attribute of [target]: [None] has none. *)
Definition deref (target : option ref) (attr_name : string) : M ref :=
  match target with
  | Some t => mret t
  | None => raise (AttributeError attr_name)
  end.

Definition newline : string := String "010"%char EmptyString.

(** [skill.use(character, target)], dispatched on the class of [skill].
    [amount] is the value of the [random.randint] call of that class (unused
    by a class that has none) and [pick] the position drawn by its
    [random.choice(self.message_displays)]. *)
Definition use (skill : Skill) (character : ref) (target : option ref)
    (amount : Z) (pick : nat) : M string :=
  match skill_class skill with
  | Skills.BaseSkill => raise NotImplementedError
  | Skills.WhiskerGuard =>
      let defense_points_increase := amount in
      dp ← getattr character defense_points;
      setattr character (set_defense_points (dp + defense_points_increase));;
      message_display ← choice (message_displays skill) pick;
      character_name ← getattr character name;
      text ← format message_display {[ "character" := character_name ]};
      mret (text +:+ newline +:+ "(+" +:+ pretty defense_points_increase
            +:+ " Defense Points)")
  | Skills.ClawSwipe =>
      t ← deref target "name";
      target_name ← getattr t name;
      let damage_dealt := amount in
      target_dp ← getattr t defense_points;
      battle_log ←
        (if bool_decide (damage_dealt > target_dp) then
           let net_damage := damage_dealt - target_dp in
           hp ← getattr t health_points;
           setattr t (set_health_points (hp - net_damage));;
           mret ("(removed " +:+ target_name +:+ " defense and dealt "
                 +:+ pretty net_damage +:+ "HP)")
         else mret ("(removed " +:+ target_name +:+ " defense)"));
      setattr t (set_defense_points 0);;
      message_display ← choice (message_displays skill) pick;
      character_name ← getattr character name;
      text ← format message_display
               {[ "character" := character_name; "target" := target_name ]};
      mret (text +:+ newline +:+ battle_log)
  | Skills.IllusionaryAura =>
      let invincible := new_Invincible in
      items ← getattr_opt character "active_effects" active_effects;
      setattr character (set_active_effects (items ++ [invincible]));;
      message_display ← choice (message_displays skill) pick;
      character_name ← getattr character name;
      text ← format message_display {[ "character" := character_name ]};
      mret (text +:+ newline +:+ "(" +:+ effect_name invincible
            +:+ " Effect Activated)")
  | Skills.ReflectiveShield =>
      let reflective_shield := new_ReflectiveShield in
      items ← getattr_opt character "active_effects" active_effects;
      setattr character (set_active_effects (items ++ [reflective_shield]));;
      message_display ← choice (message_displays skill) pick;
      character_name ← getattr character name;
      t ← deref target "name";
      target_name ← getattr t name;
      text ← format message_display
               {[ "character" := character_name; "target" := target_name ]};
      mret (text +:+ newline +:+ "(reflective shield effect activated)")
  | Skills.HealingPurr =>
      let health_points_increase := amount in
      hp ← getattr character health_points;
      setattr character (set_health_points (hp + health_points_increase));;
      message_display ← choice (message_displays skill) pick;
      character_name ← getattr character name;
      text ← format message_display {[ "character" := character_name ]};
      mret (text +:+ newline +:+ "(+" +:+ pretty health_points_increase
            +:+ " health points)")
  | Skills.LuckyCharm =>
      let luck_increase := 5 in
      character_luck ← getattr character luck;
      setattr character (set_luck (character_luck + luck_increase));;
      message_display ← choice (message_displays skill) pick;
      character_name ← getattr character name;
      text ← format message_display {[ "character" := character_name ]};
      mret (text +:+ newline +:+ "(+" +:+ pretty luck_increase +:+ "% luck)")
  | Skills.PurrfectStrike =>
      t ← deref target "defense_points";
      setattr t (set_defense_points 0);;
      let damage_dealt := amount in
      hp ← getattr t health_points;
      setattr t (set_health_points (hp - damage_dealt));;
      message_display ← choice (message_displays skill) pick;
      character_name ← getattr character name;
      target_name ← getattr t name;
      text ← format message_display
               {[ "character" := character_name; "target" := target_name ]};
      mret (text +:+ newline +:+ "(removed " +:+ target_name
            +:+ "'s defense and dealt " +:+ pretty damage_dealt +:+ "HP)")
  | Skills.CripplingStrike =>
      let speed_reduction := amount in
      t ← deref target "speed_points";
      sp ← getattr t speed_points;
      setattr t (set_speed_points (Z.max 0 (sp - speed_reduction)));;
      message_display ← choice (message_displays skill) pick;
      character_name ← getattr character name;
      target_name ← getattr t name;
      text ← format message_display
               {[ "character" := character_name; "target" := target_name ]};
      mret (text +:+ newline +:+ "(Reduced " +:+ target_name
            +:+ " speed points by " +:+ pretty speed_reduction +:+ ")")
  end.

(** ** characters.py: use_skill *)

(** [seq[i]] on a list: a negative index counts from the end, and an index
    outside [-len(seq), len(seq))] raises [IndexError]. *)
Definition list_getitem {A} (seq : list A) (i : Z) : M A :=
  let n := Z.of_nat (length seq) in
  let j := if bool_decide (i < 0) then i + n else i in
  if bool_decide (0 <= j) then
    match seq !! Z.to_nat j with
    | Some x => mret x
    | None => raise IndexError
    end
  else raise IndexError.

(** What [use_skill] gives back to its caller: [None] after printing a line,
    the pair [(is_available, log)] of a failed cost check, or the log of the
    skill. *)
Inductive use_skill_result :=
| PrintedNone (line : string)
| CostCheck (is_available : bool) (log : string)
| UseLog (log : string).

(** [self.use_skill(skill_index, target)], with [amount] and [pick] the
    random values of the skill's [use]. *)
Definition use_skill (self : ref) (skill_index : Z) (target : option ref)
    (amount : Z) (pick : nat) : M use_skill_result :=
  self_skills ← getattr_opt self "skills" skills;
  if bool_decide (skill_index >= Z.of_nat (length self_skills)) then
    mret (PrintedNone ("skill_index (" +:+ pretty skill_index
                       +:+ ") out of range"))
  else
    skill ← list_getitem self_skills skill_index;
    checked ← check_skill_cost self skill;
    let is_available := checked.1 in
    let log := checked.2 in
    if negb is_available then mret (CostCheck is_available log)
    else
      sp ← getattr self speed_points;
      setattr self (set_speed_points (sp - speed_points_cost skill));;
      mp ← getattr_opt self "magic_points" magic_points;
      setattr self (set_magic_points (mp - magic_points_cost skill));;
      match target with
      | Some _ =>
          log ← use skill self target amount pick;
          mret (UseLog log)
      | None =>
          if require_target skill then
            mret (PrintedNone "Skill requires a target argument.")
          else
            log ← use skill self None amount pick;
            mret (UseLog log)
      end.

(** ** game_manager.py *)

(** The attributes of a [GameManager] instance. *)
Record GameManager := {
  player_characters : list ref;
  enemies : list ref;
  active_player_character : ref;
  active_enemy_character : ref;
  turn_character : ref;
  battle_log : list string
}.

(** [GameManager.update_idle_character_stats(idle_character)] *)
Definition update_idle_character_stats (idle_character : ref) : M unit :=
  sp ← getattr idle_character speed_points;
  setattr idle_character (set_speed_points (sp + 1));;
  dp ← getattr idle_character defense_points;
  setattr idle_character (set_defense_points (Z.max dp 0));;
  enemy ← getattr idle_character is_enemy;
  if negb enemy then
    mp ← getattr_opt idle_character "magic_points" magic_points;
    setattr idle_character (set_magic_points (mp + 1))
  else mret tt.

(** The sort key of [determine_turn_order]: the pair
    [(entity.speed_points, random.random())].  A value of [random.random()] is
    [k / 2^53] for an integer [0 <= k < 2^53]; the key holds [k], which
    orders the same way. *)
Definition key := (Z * Z)%type.

(** Tuple comparison [k1 < k2]. *)
Definition key_lt (k1 k2 : key) : bool :=
  bool_decide (k1.1 < k2.1) || (bool_decide (k1.1 = k2.1) && bool_decide (k1.2 < k2.2)).

(** [sorted(..., reverse=True)] on entities paired with their keys: a stable
    sort into descending key order, entities of equal key keeping their
    original order. *)
Fixpoint insert_descending (x : key * ref) (sorted : list (key * ref))
    : list (key * ref) :=
  match sorted with
  | [] => [x]
  | y :: rest =>
      if key_lt x.1 y.1 then y :: insert_descending x rest
      else x :: y :: rest
  end.

Definition sorted_descending (entities : list (key * ref)) : list (key * ref) :=
  foldr insert_descending [] entities.

(** [self.determine_turn_order()], with [random_enemy] and [random_player]
    the values of the two [random.random()] calls, made in list order. *)
Definition determine_turn_order (self : GameManager)
    (random_enemy random_player : Z) : M ref :=
  let active_characters :=
    [(active_enemy_character self, random_enemy);
     (active_player_character self, random_player)] in
  fun h =>
    let keyed :=
      map (fun er => ((speed_points (h er.1), er.2), er.1)) active_characters in
    match sorted_descending keyed with
    | first :: _ => Ret first.2 h
    | [] => Raise IndexError h
    end.

(** [any(character.is_alive() for character in characters)] *)
Fixpoint any_alive (characters : list ref) : M bool :=
  match characters with
  | [] => mret false
  | character :: rest =>
      alive ← is_alive character;
      if (alive : bool) then mret true else any_alive rest
  end.

(** [self.is_game_over()] *)
Definition is_game_over (self : GameManager) : M bool :=
  players_alive ← any_alive (player_characters self);
  if negb players_alive then mret true
  else
    enemies_alive ← any_alive (enemies self);
    mret (negb enemies_alive).

(** [self.player_won()]; the line printed when the game is not over is not
    part of the result. *)
Definition player_won (self : GameManager) : M bool :=
  game_over ← is_game_over self;
  if negb game_over then mret false
  else
    players_alive ← any_alive (player_characters self);
    if (players_alive : bool) then
      enemies_alive ← any_alive (enemies self);
      mret (negb enemies_alive)
    else mret false.

(** * Vocabulary of the properties *)

(** The two classes of effect a character can hold. *)
Definition is_invincible (e : Effect) : Prop :=
  effect_class e = SkillEffects.Invincible.

Definition is_shield (e : Effect) : Prop :=
  effect_class e = SkillEffects.ReflectiveShield.

#[global] Instance is_invincible_dec e : Decision (is_invincible e).
Proof. unfold is_invincible. apply _. Defined.

#[global] Instance is_shield_dec e : Decision (is_shield e).
Proof. unfold is_shield. apply _. Defined.

#[global] Typeclasses Opaque is_invincible is_shield.

(** [effect.use_count -= 1] *)
Definition spend_use (e : Effect) : Effect := set_use_count (use_count e - 1) e.

(** A target with no active effect: an enemy, which has no [active_effects],
    or a character whose list is empty. *)
Definition no_active_effects (c : Character) : Prop :=
  active_effects c = None \/ active_effects c = Some [].

(** [character.is_alive()] as a proposition on the heap. *)
Definition alive (h : heap) (character : ref) : Prop :=
  0 < health_points (h character).

(** * Concrete combatants *)

(** The rows of [skill_attributes.csv], [job_class_attributes.csv] and
    [enemy_attributes.csv] are data files outside the sources; the numbers
    below are sample rows.  The texts are those of the constructors. *)
Definition whisker_guard : Skill :=
  {| skill_class := Skills.WhiskerGuard;
     skill_name := "Whisker Guard";
     description :=
       "Increases the character's defense by a random amount with "
       +:+ "cat-like reflexes.";
     magic_points_cost := 2;
     speed_points_cost := 1;
     require_target := false;
     message_displays :=
       [ "With a swift movement, {character} activates Whisker Guard, shielding itself "
         +:+ "from harm.";
         "{character} activates Whisker Guard, increasing their own defense.";
         "By focusing their inner cat instincts, {character} empowers their defense with "
         +:+ "Whisker Guard, ready to withstand any attack." ];
     belongs_to := "Tank" |}.

Definition claw_swipe : Skill :=
  {| skill_class := Skills.ClawSwipe;
     skill_name := "Claw Swipe";
     description :=
       "Unleash a flurry of razor-sharp claws, striking enemies and "
       +:+ "removing their defense.";
     magic_points_cost := 3;
     speed_points_cost := 2;
     require_target := true;
     message_displays :=
       [ "The sound of claws tearing through flesh fills the air as {character} "
         +:+ "delivers a devastating clawswipe, leaving {target} defenseless!";
         "A flurry of razor-sharp claws slices through the air as {character} "
         +:+ "executes a powerful clawswipe, removing {target}'s defenses!";
         "{target} is caught off guard as {character} launches a surprise attack "
         +:+ "with a ferocious clawswipe, rendering {target}'s defenses useless!" ];
     belongs_to := "Tank" |}.

Definition sample_job_class_attributes : gmap string AttributeRow :=
  {[ "Tank" := {| HP := 100; DP := 20; AP := 10; SP := 5; MP := 10; Luck := 10 |} ]}.

Definition sample_ascii_arts : gmap string (list string) :=
  {[ "Tank" := ["/\_/\"; "(o.o)"] ]}.

(** A Tank in the middle of a fight: hurt, slowed, and luckier than its row. *)
Definition whiskerwall : Character :=
  {| class_of := Tank; name := "Whiskerwall"; job_class := "Tank";
     health_points := 40; attack_points := 10; defense_points := 3;
     speed_points := 3; magic_points := Some 7; luck := 15;
     skills := Some [whisker_guard; claw_swipe];
     active_effects := Some [];
     max_health_points := Some 100; max_defense_points := Some 20;
     character_image := ""; ascii_art := ["/\_/\"; "(o.o)"];
     starting_column_position := 0 |}.

(** A MirrorMage holding the effects [effects]. *)
Definition purrception (effects : list Effect) : Character :=
  {| class_of := MirrorMage; name := "Purrception"; job_class := "MirrorMage";
     health_points := 70; attack_points := 8; defense_points := 6;
     speed_points := 6; magic_points := Some 12; luck := 10;
     skills := Some [];
     active_effects := Some effects;
     max_health_points := Some 70; max_defense_points := Some 10;
     character_image := ""; ascii_art := [];
     starting_column_position := 0 |}.

(** An enemy: no [magic_points], [skills] or [active_effects]. *)
Definition viperstrike : Character :=
  {| class_of := EnemyCharacter; name := "Viperstrike"; job_class := "";
     health_points := 60; attack_points := 12; defense_points := 5;
     speed_points := 4; magic_points := None; luck := 20;
     skills := None;
     active_effects := None;
     max_health_points := Some 60; max_defense_points := Some 5;
     character_image := ""; ascii_art := [];
     starting_column_position := 0 |}.

(** A heap with the Tank at reference 0, the enemy at reference 1 and the
    MirrorMage, holding [effects], everywhere else. *)
Definition arena (effects : list Effect) : heap :=
  fun r => match r with
           | O => whiskerwall
           | S O => viperstrike
           | _ => purrception effects
           end.

Definition sample_manager : GameManager :=
  {| player_characters := [0%nat; 2%nat];
     enemies := [1%nat];
     active_player_character := 0%nat;
     active_enemy_character := 1%nat;
     turn_character := 1%nat;
     battle_log := [] |}.

(** * The rest of the combat code *)

(** ** skills.py: the constructors *)

(** A row of [skill_attributes.csv] as [_assign_skill_attributes] reads it:
    the two costs through [int(...)], and [require_target] as the result of
    the comparison of the lowered column with the text yes. *)
Record SkillRow := {
  row_name : string;
  mp_cost : Z;
  sp_cost : Z;
  row_require_target : bool;
  row_belongs_to : string
}.

(** [self.description], set by the constructor of each class of [Skills];
    [BaseSkill] keeps the class attribute. *)
Definition class_description (c : Skills.cls) : string :=
  match c with
  | Skills.BaseSkill => ""%string
  | Skills.WhiskerGuard =>
      "Increases the character's defense by a random amount with "
      +:+ "cat-like reflexes."
  | Skills.ClawSwipe =>
      "Unleash a flurry of razor-sharp claws, striking enemies and "
      +:+ "removing their defense."
  | Skills.IllusionaryAura =>
      "Creates a mesmerizing aura that confuses enemies, causing them "
      +:+ "to miss their attacks."
  | Skills.ReflectiveShield =>
      "Creates a magical barrier that reflects a portion of the next "
      +:+ "incoming spell back at the enemy."
  | Skills.HealingPurr =>
      "Restores health points and brings comfort through the power of "
      +:+ "purrs."
  | Skills.LuckyCharm =>
      "Channel inner luck to create a protective charm, increasing its "
      +:+ "luck and favoring positive outcomes."
  | Skills.PurrfectStrike =>
      " Unleash a swift and precise strike, targeting the enemy's weak "
      +:+ "spot with deadly accuracy, dealing high damage."
  | Skills.CripplingStrike =>
      "Deliver a precise strike that cripples the target, slowing "
      +:+ "their movements."
  end.

(** [self.message_displays], set by the constructor of each class. *)
Definition class_message_displays (c : Skills.cls) : list string :=
  match c with
  | Skills.BaseSkill => []
  | Skills.WhiskerGuard =>
      [ "With a swift movement, {character} activates Whisker Guard, shielding itself "
        +:+ "from harm.";
        "{character} activates Whisker Guard, increasing their own defense.";
        "By focusing their inner cat instincts, {character} empowers their defense with "
        +:+ "Whisker Guard, ready to withstand any attack." ]
  | Skills.ClawSwipe =>
      [ "The sound of claws tearing through flesh fills the air as {character} "
        +:+ "delivers a devastating clawswipe, leaving {target} defenseless!";
        "A flurry of razor-sharp claws slices through the air as {character} "
        +:+ "executes a powerful clawswipe, removing {target}'s defenses!";
        "{target} is caught off guard as {character} launches a surprise attack "
        +:+ "with a ferocious clawswipe, rendering {target}'s defenses useless!" ]
  | Skills.IllusionaryAura =>
      [ "{character} casts Illusionary Aura, creating a captivating aura around "
        +:+ "themselves.";
        "The mesmerizing aura of {character}'s Illusionary Aura confuses the enemy, "
        +:+ "causing them to miss their attack!";
        "The enemy's attack goes astray as they are bewildered by the illusionary aura "
        +:+ "surrounding {character}." ]
  | Skills.ReflectiveShield =>
      [ "A shimmering shield envelops {character}, ready to reflect incoming physical "
        +:+ "damage from {target}.";
        "{character} channels their magic, creating a barrier of reflection to counter "
        +:+ "{target}'s assault.";
        "{character}'s Reflective Shield sparkles with energy, poised to send "
        +:+ "{target}'s strength back at them." ]
  | Skills.HealingPurr =>
      [ "{character} emits a gentle purr, enveloping themselves in healing energy.";
        "The soothing purrs of {character} resonate, restoring their health points.";
        "{character}'s healing purr fills the air, bringing comfort and replenishing "
        +:+ "their vitality." ]
  | Skills.LuckyCharm =>
      [ "The air around {character} shimmers with luck as the lucky charm takes effect.";
        "The lucky charm envelops {character}, infusing them with a heightened sense of "
        +:+ "favorable outcomes.";
        "With the lucky charm activated, {character} feels a surge of good luck "
        +:+ "coursing through their veins." ]
  | Skills.PurrfectStrike =>
      [ "With lightning speed, {character} lunges at {target}, aiming for a critical hit.";
        "The sound of a fierce, focused purr fills the air as {character} delivers a "
        +:+ "devastating blow at {target}.";
        "{target} reels from {character}'s Purrfect Strike, unable to withstand the "
        +:+ "precise attack." ]
  | Skills.CripplingStrike =>
      [ "{target}'s agility is hindered by {character}'s crippling strike!";
        "With a calculated strike, {character} impairs {target}'s mobility!";
        "{character}'s crippling strike disrupts {target}'s flow, hampering their movement!" ]
  end.

(** The instance that the constructor of class [c] builds when [attr] is the
    row of its class name in [skill_attributes.csv]. *)
Definition new_skill (c : Skills.cls) (attr : SkillRow) : Skill :=
  {| skill_class := c;
     skill_name := row_name attr;
     description := class_description c;
     magic_points_cost := mp_cost attr;
     speed_points_cost := sp_cost attr;
     require_target := row_require_target attr;
     message_displays := class_message_displays c;
     belongs_to := row_belongs_to attr |}.

#[global] Instance skills_cls_eq_dec : EqDecision Skills.cls.
Proof. solve_decision. Defined.

(** The classes whose [use] reads an attribute of [target]. *)
Definition reads_target (c : Skills.cls) : bool :=
  match c with
  | Skills.ClawSwipe | Skills.ReflectiveShield
  | Skills.PurrfectStrike | Skills.CripplingStrike => true
  | _ => false
  end.

(** ** enemies.py *)

(** [self.defend()] *)
Definition defend (self : ref) : M string :=
  max_dp ← getattr_opt self "max_defense_points" max_defense_points;
  setattr self (set_defense_points max_dp);;
  self_name ← getattr self name;
  mret (self_name +:+ " restored its defense points!").

(** ** game_manager.py: the fight between two turns *)

(** [collections.deque(maxlen=...)]: [append] on a full deque drops the item
    at the left end. *)
Definition deque_append (maxlen : nat) (d : list string) (x : string)
    : list string :=
  let d' := d ++ [x] in drop (length d' - maxlen) d'.

(** The [maxlen] of [self.battle_log]. *)
Definition battle_log_maxlen : nat := 5.

Definition set_battle_log (v : list string) (self : GameManager) : GameManager :=
  {| player_characters := player_characters self;
     enemies := enemies self;
     active_player_character := active_player_character self;
     active_enemy_character := active_enemy_character self;
     turn_character := turn_character self;
     battle_log := v |}.

Definition set_active_player_character (v : ref) (self : GameManager)
    : GameManager :=
  {| player_characters := player_characters self;
     enemies := enemies self;
     active_player_character := v;
     active_enemy_character := active_enemy_character self;
     turn_character := turn_character self;
     battle_log := battle_log self |}.

Definition set_active_enemy_character (v : ref) (self : GameManager)
    : GameManager :=
  {| player_characters := player_characters self;
     enemies := enemies self;
     active_player_character := active_player_character self;
     active_enemy_character := v;
     turn_character := turn_character self;
     battle_log := battle_log self |}.

(** [GameManager(player_characters, enemies)], with the two values of
    [random.random()] that [determine_turn_order] draws.  [turn_character]
    does not exist while [determine_turn_order] runs, which does not read
    it. *)
Definition GameManager_init (player_characters enemies : list ref)
    (random_enemy random_player : Z) : M GameManager :=
  active_player ← list_getitem player_characters 0;
  active_enemy ← list_getitem enemies 0;
  let self :=
    {| player_characters := player_characters;
       enemies := enemies;
       active_player_character := active_player;
       active_enemy_character := active_enemy;
       turn_character := active_enemy;
       battle_log := [] |} in
  first ← determine_turn_order self random_enemy random_player;
  mret {| player_characters := player_characters;
          enemies := enemies;
          active_player_character := active_player;
          active_enemy_character := active_enemy;
          turn_character := first;
          battle_log := [] |}.

(** What [next(generator)] gives: an item, or [StopIteration] when the
    generator is exhausted.  The exception leaves the method that called
    [next], so it is the result of that method. *)
Inductive next_result (A : Type) :=
| Next (a : A)
| StopIteration.
Arguments Next {A} a.
Arguments StopIteration {A}.

(** [next(character for character in characters if character.is_alive())] *)
Fixpoint next_alive (characters : list ref) : M (next_result ref) :=
  match characters with
  | [] => mret StopIteration
  | character :: rest =>
      alive ← is_alive character;
      if (alive : bool) then mret (Next character) else next_alive rest
  end.

(** [self.handle_defeated_character(character, opponent)]; [current_time] is
    the text of [datetime.now().strftime(...)].  The method assigns attributes
    of [self]: it returns [self] as it leaves it. *)
Definition handle_defeated_character (self : GameManager)
    (character opponent : ref) (current_time : string)
    : M (next_result GameManager) :=
  setattr character (set_health_points 0);;
  character_name ← getattr character name;
  opponent_name ← getattr opponent name;
  let self :=
    set_battle_log
      (deque_append battle_log_maxlen (battle_log self)
         (current_time +:+ character_name +:+ " has been defeated by "
          +:+ opponent_name +:+ "!"))
      self in
  game_over ← is_game_over self;
  if negb game_over then
    enemy ← getattr character is_enemy;
    if (enemy : bool) then
      found ← next_alive (enemies self);
      match found with
      | Next c => mret (Next (set_active_enemy_character c self))
      | StopIteration => mret StopIteration
      end
    else
      found ← next_alive (player_characters self);
      match found with
      | Next c => mret (Next (set_active_player_character c self))
      | StopIteration => mret StopIteration
      end
  else mret (Next self).

(** [self.switch_active_player_characters()], from the point where the menu
    has returned [chosen_character]; the method gives back its log and
    assigns [self.active_player_character]. *)
Definition switch_active_player_characters (self : GameManager)
    (chosen_character : ref) : M (GameManager * string) :=
  let old_active_character := active_player_character self in
  chosen_alive ← is_alive chosen_character;
  if (chosen_alive : bool) then
    let self := set_active_player_character chosen_character self in
    old_name ← getattr old_active_character name;
    new_name ← getattr (active_player_character self) name;
    mret (self, "Active character switched from " +:+ old_name +:+ " to "
                +:+ new_name +:+ ".")
  else
    chosen_name ← getattr chosen_character name;
    mret (self, chosen_name +:+ " is defeated and can't be chosen!").

(** ** scenes.py *)

(** The attribute of a [Scenes] instance. *)
Record Scenes := {
  selected_characters : list ref
}.

Section SceneCatalog.
Variable job_class_attributes : gmap string AttributeRow.
Variable ascii_arts : gmap string (list string).

(** The loop of [restore_all_character_stats] over the characters left. *)
Fixpoint restore_each (characters : list ref) : M unit :=
  match characters with
  | [] => mret tt
  | character :: rest =>
      alive ← is_alive character;
      (if (alive : bool) then restore_stats job_class_attributes ascii_arts character
       else mret tt);;
      restore_each rest
  end.

(** [self.restore_all_character_stats()] *)
Definition restore_all_character_stats (self : Scenes) : M unit :=
  restore_each (selected_characters self).
End SceneCatalog.

(** The integer attributes that [stat] can name in
    [add_points_to_all_characters]. *)
Inductive stat :=
| stat_health_points | stat_attack_points | stat_defense_points
| stat_speed_points | stat_magic_points | stat_luck.

(** [getattr(character, stat, 0)] *)
Definition getattr_default (s : stat) (c : Character) : Z :=
  match s with
  | stat_health_points => health_points c
  | stat_attack_points => attack_points c
  | stat_defense_points => defense_points c
  | stat_speed_points => speed_points c
  | stat_magic_points => default 0 (magic_points c)
  | stat_luck => luck c
  end.

(** [setattr(character, stat, v)] *)
Definition setattr_stat (s : stat) (v : Z) : Character -> Character :=
  match s with
  | stat_health_points => set_health_points v
  | stat_attack_points => set_attack_points v
  | stat_defense_points => set_defense_points v
  | stat_speed_points => set_speed_points v
  | stat_magic_points => set_magic_points v
  | stat_luck => set_luck v
  end.

(** The loop of [add_points_to_all_characters] over the characters left. *)
Fixpoint add_points_each (characters : list ref) (s : stat) (amount : Z)
    : M unit :=
  match characters with
  | [] => mret tt
  | character :: rest =>
      alive ← is_alive character;
      (if (alive : bool) then
         current_value ← getattr character (getattr_default s);
         setattr character (setattr_stat s (current_value + amount))
       else mret tt);;
      add_points_each rest s amount
  end.

(** [self.add_points_to_all_characters(stat, amount)] *)
Definition add_points_to_all_characters (self : Scenes) (s : stat) (amount : Z)
    : M unit :=
  add_points_each (selected_characters self) s amount.

(** ** Vocabulary of the further properties *)

(** The heap as a method leaves it, whether it returns or raises. *)
Definition heap_after {A} (o : outcome A) : heap :=
  match o with
  | Ret _ h => h
  | Raise _ h => h
  end.

(** One [basic_attack] of [self] on [target] for each roll of [rolls], in a
    row; the logs in order. *)
Fixpoint basic_attacks (self target : ref) (rolls : list Z) : M (list string) :=
  match rolls with
  | [] => mret []
  | roll :: rest =>
      log ← basic_attack self target roll;
      logs ← basic_attacks self target rest;
      mret (log :: logs)
  end.

(** A method keeps the relation [P] when [P] holds between the heap it finds
    and the heap it leaves, whether it returns or raises. *)
Definition keeps (P : heap -> heap -> Prop) {A} (m : M A) : Prop :=
  forall h, P h (heap_after (m h)).

#[global] Instance alive_dec h character : Decision (alive h character).
Proof. unfold alive. apply _. Defined.

#[global] Typeclasses Opaque alive.

(** Both sides still have a member alive. *)
Definition game_on (self : GameManager) (h : heap) : Prop :=
  Exists (alive h) (player_characters self) /\ Exists (alive h) (enemies self).

#[global] Instance game_on_dec self h : Decision (game_on self h).
Proof. unfold game_on. apply _. Defined.

(** The relation that every [use] keeps between the heap it finds and the
    heap it leaves: no magic points change and no speed that was not
    negative becomes negative. *)
Definition points_kept (h h' : heap) : Prop :=
  forall r, magic_points (h' r) = magic_points (h r)
            /\ (0 <= speed_points (h r) -> 0 <= speed_points (h' r)).

(** ** Python floats *)

(** A Python float is an IEEE 754 double: 53 bits of precision, and an
    exponent below 1024. *)
Definition float := SpecFloat.spec_float.

(** The conversion of an int operand of a float operation: the nearest
    double, ties to even, and [OverflowError], here [None], for an int too
    large to have one. *)
Definition float_of_int (x : Z) : option float :=
  match SpecFloat.binary_normalize 53 1024 x 0 false with
  | SpecFloat.S754_infinity _ => None
  | f => Some f
  end.

(** [a * b] on two floats. *)
Definition float_mul (a b : float) : float := SpecFloat.SFmul 53 1024 a b.

(** The literals [0.2] and [0.5]: the doubles nearest to them. *)
Definition float_0_2 : float := SpecFloat.S754_finite false 7205759403792794 (-55).
Definition float_0_5 : float := SpecFloat.S754_finite false 4503599627370496 (-53).

(** [x < f] for an int and a float: Python compares the two exact values. *)
Definition int_lt_float (x : Z) (f : float) : bool :=
  match f with
  | SpecFloat.S754_zero _ => bool_decide (x < 0)
  | SpecFloat.S754_infinity s => negb s
  | SpecFloat.S754_nan => false
  | SpecFloat.S754_finite s m e =>
      let v := if s then Z.neg m else Z.pos m in
      if bool_decide (0 <= e) then bool_decide (x < v * 2 ^ e)
      else bool_decide (x * 2 ^ (- e) < v)
  end.

(** ** enemies.py: select_action *)

(** What [select_action] returns: [partial(self.basic_attack, active_player)],
    [self.heal] or [self.defend]. *)
Inductive action :=
| BasicAttack (target : ref)
| Heal
| Defend.

(** The result of [select_action]: the action, or the [OverflowError] of a
    float product whose int operand is too large. *)
Inductive select_result :=
| Selected (a : action)
| OverflowError.

(** [self.select_action(active_player)] *)
Definition select_action (self active_player : ref) : M select_result :=
  player_hp ← getattr active_player health_points;
  player_dp ← getattr active_player defense_points;
  ap ← getattr self attack_points;
  if bool_decide (player_hp + player_dp < ap) then
    mret (Selected (BasicAttack active_player))
  else
    hp ← getattr self health_points;
    max_hp ← getattr_opt self "max_health_points" max_health_points;
    match float_of_int max_hp with
    | None => mret OverflowError
    | Some max_hp =>
        if int_lt_float hp (float_mul float_0_2 max_hp) then mret (Selected Heal)
        else
          dp ← getattr self defense_points;
          max_dp ← getattr_opt self "max_defense_points" max_defense_points;
          match float_of_int max_dp with
          | None => mret OverflowError
          | Some max_dp =>
              if int_lt_float dp (float_mul float_0_5 max_dp)
              then mret (Selected Defend)
              else mret (Selected (BasicAttack active_player))
          end
    end.

(** The call [enemy_action()] of the action that [select_action] returned,
    with the random values of [basic_attack] and [heal]. *)
Definition call_action (self : ref) (a : action) (roll hp_increase : Z)
    : M string :=
  match a with
  | BasicAttack target => basic_attack self target roll
  | Heal => heal self hp_increase
  | Defend => defend self
  end.

(** The least integer not below a finite float. *)
Definition ceil_float (f : float) : option Z :=
  match f with
  | SpecFloat.S754_zero _ => Some 0
  | SpecFloat.S754_finite s m e =>
      let v := if s then Z.neg m else Z.pos m in
      if bool_decide (0 <= e) then Some (v * 2 ^ e)
      else Some (- ((- v) / 2 ^ (- e)))
  | _ => None
  end.

(** The product of the float [k] and the int [max] has the same integers
    below it as the fraction [num * max / den]. *)
Definition threshold_agrees (k : float) (num den : Z) (max : Z) : bool :=
  match float_of_int max with
  | Some f =>
      bool_decide (ceil_float (float_mul k f) = Some (- ((- (num * max)) / den)))
  | None => false
  end.

(** [f] holds of the [n] integers from [x] on. *)
Fixpoint all_from (f : Z -> bool) (x : Z) (n : nat) : bool :=
  match n with
  | O => true
  | S n => f x && all_from f (Z.succ x) n
  end.

(** The range of maxima over which the thresholds are checked. *)
Definition max_checked : Z := 10000.

(** ** scenes.py: the scenes *)

(** The texts of [combatgame.resources.lore] that the two scenes display, by
    their names; an item of a list by its index. *)
Inductive lore :=
| SCENE_ONE (i : nat)
| SCENE_TWO
| SCENE_TWO_OPTION_ONE (i : nat)
| SCENE_TWO_OPTION_TWO (i : nat)
| SCENE_TWO_OPTION_THREE (i : nat)
| SECOND_COMBAT_WIN
| PLAYER_LOST.

(** What a scene puts on the terminal: [Ui.execute_lore(text)],
    [Ui.Animation.display_combat_start(...)] before the fight with the enemy
    of that name, and [Ui.Animation.display_thunderstorm(flash=flash)]. *)
Inductive screen :=
| Lore (text : lore)
| CombatStart (enemy_name : string)
| Thunderstorm (flash : bool).

(** The keys of [scene_two_options_dict]. *)
Inductive path :=
| TheWhisperingCaverns
| TheMistyPeaks
| TheEnchantedMeadows.

Section Story.
Variable job_class_attributes : gmap string AttributeRow.
Variable ascii_arts : gmap string (list string).

(** [EnemyCharacter(name)]: the reference of the new object. *)
Variable new_enemy : string -> M ref.

(** [GameManager(self.selected_characters, enemies).start_combat()]: the
    fight, played at the terminal; it returns [player_won]. *)
Variable start_combat : list ref -> list ref -> M bool.

(** [self.scene_one()].  A scene takes the screens shown so far and returns
    them with its own after its result. *)
Definition scene_one (self : Scenes) (out : list screen)
    : M (bool * list screen) :=
  enemy ← new_enemy "Viperstrike";
  let encountered_enemies := [enemy] in
  let out := out ++ [Lore (SCENE_ONE 0)] in
  let out := out ++ [CombatStart "Viperstrike"] in
  player_won ← start_combat (selected_characters self) encountered_enemies;
  if negb player_won then
    mret (true, out ++ [Lore PLAYER_LOST])
  else
    mret (false, out ++ [Lore (SCENE_ONE 1)]).

(** [second_combat_scene()] of [scene_two] *)
Definition second_combat_scene (self : Scenes) (out : list screen)
    : M (bool * list screen) :=
  enemy ← new_enemy "Doomshroud";
  let enemies := [enemy] in
  let out := out ++ [CombatStart "Doomshroud"] in
  player_won ← start_combat (selected_characters self) enemies;
  if negb player_won then mret (true, out)
  else mret (false, out ++ [Lore SECOND_COMBAT_WIN]).

(** [option_two_scene()]: it returns [None]. *)
Definition option_two_scene (out : list screen)
    : M (option bool * list screen) :=
  mret (None, out ++ [Lore (SCENE_TWO_OPTION_TWO 0)]).

(** [option_one_scene()] *)
Definition option_one_scene (self : Scenes) (out : list screen)
    : M (option bool * list screen) :=
  let out := out ++ [Lore (SCENE_TWO_OPTION_ONE 0)] in
  restore_all_character_stats job_class_attributes ascii_arts self;;
  let out := out ++ [Lore (SCENE_TWO_OPTION_ONE 1)] in
  returned ← second_combat_scene self out;
  let player_won := returned.1 in
  let out := returned.2 in
  if negb player_won then mret (Some true, out)
  else
    let out := out ++ [Lore (SCENE_TWO_OPTION_ONE 2)] in
    option_two_scene out.

(** [option_three_scene()] *)
Definition option_three_scene (self : Scenes) (flash : bool) (out : list screen)
    : M (option bool * list screen) :=
  let out := out ++ [Lore (SCENE_TWO_OPTION_THREE 0)] in
  add_points_to_all_characters self stat_magic_points 10;;
  let out := out ++ [Thunderstorm flash] in
  let out := out ++ [Lore (SCENE_TWO_OPTION_THREE 1)] in
  returned ← second_combat_scene self out;
  let player_won := returned.1 in
  let out := returned.2 in
  if negb player_won then mret (Some true, out)
  else
    let out := out ++ [Lore (SCENE_TWO_OPTION_THREE 2)] in
    option_two_scene out.

(** [self.scene_two(flash)], with [selected_option] the path that the menu
    returned. *)
Definition scene_two (self : Scenes) (flash : bool) (selected_option : path)
    (out : list screen) : M (option bool * list screen) :=
  let out := out ++ [Lore SCENE_TWO] in
  match selected_option with
  | TheWhisperingCaverns => option_one_scene self out
  | TheMistyPeaks => option_two_scene out
  | TheEnchantedMeadows => option_three_scene self flash out
  end.
End Story.

(** ** A sample row of skill_attributes.csv *)

(** The data file is outside the sources; the costs are sample values. *)
Definition sample_skill_row : SkillRow :=
  {| row_name := "Sample Skill";
     mp_cost := 3;
     sp_cost := 2;
     row_require_target := true;
     row_belongs_to := "Tank" |}.

(** * Reasoning about the heap *)

Lemma heap_update_eq r set h : heap_update r set h r = set (h r).
Proof. unfold heap_update. by rewrite decide_True. Qed.

Lemma heap_update_ne r r' set h : r <> r' -> heap_update r set h r' = h r'.
Proof. intros. unfold heap_update. by rewrite decide_False. Qed.

Arguments heap_update : simpl never.

(** Unfolding the monad and the attribute accesses. *)
Ltac run :=
  unfold mbind, M_bind, bind, mret, M_ret, ret, raise,
    getattr, getattr_opt, setattr, getitem in *.

(** An attribute that an assignment does not touch reads the same after it,
    whether or not the two references are equal. *)
Lemma heap_update_frame {A} (f : Character -> A) r set h r' :
  (forall c, f (set c) = f c) -> f (heap_update r set h r') = f (h r').
Proof. intros Hf. unfold heap_update. case_decide; auto. Qed.

Ltac frame :=
  repeat match goal with
  | |- context [ ?f (heap_update ?r ?s ?h ?r') ] =>
      rewrite (heap_update_frame f r s h r') by (intros; reflexivity)
  end.

Ltac heap_simpl :=
  repeat first
    [ rewrite heap_update_eq
    | rewrite heap_update_ne by congruence
    | progress frame
    | progress cbn ].

(** * The methods, branch by branch *)

(** An effect is of one of the two classes. *)
Lemma not_invincible_is_shield e : ~ is_invincible e -> is_shield e.
Proof. unfold is_invincible, is_shield. destruct (effect_class e); congruence. Qed.

Lemma invincible_not_shield e : is_invincible e -> ~ is_shield e.
Proof. unfold is_invincible, is_shield. congruence. Qed.

(** The first item of a class is the one [get_active_effect] returns. *)
Lemma find_first (P : Effect -> Prop) `{!forall x, Decision (P x)} l1 e l2 :
  Forall (fun x => ~ P x) l1 -> P e ->
  list_find P (l1 ++ e :: l2) = Some (length l1, e).
Proof.
  intros Hl1 He. apply list_find_Some. split_and!.
  - by rewrite list_lookup_middle.
  - done.
  - intros j y Hy Hj. rewrite lookup_app_l in Hy by done.
    eapply Forall_lookup_1 in Hl1; eauto.
Qed.

Lemma alter_middle (f : Effect -> Effect) l1 e l2 :
  alter f (length l1) (l1 ++ e :: l2) = l1 ++ f e :: l2.
Proof. induction l1 as [|x l1 IH]; cbn; [done|]. by f_equal. Qed.

(** A list that holds an Invincible effect splits at the first one. *)
Lemma first_invincible effects :
  Exists is_invincible effects ->
  exists l1 inv l2,
    effects = l1 ++ inv :: l2 /\ is_invincible inv
    /\ Forall (fun x => ~ is_invincible x) l1.
Proof.
  intros (x & Hin & Hx)%Exists_exists.
  destruct (list_find_elem_of is_invincible effects x Hin Hx) as [[i inv] Hfind].
  apply list_find_Some in Hfind as (Hi & Hinv & Hbefore).
  exists (take i effects), inv, (drop (S i) effects). split_and!.
  - symmetry. by apply take_drop_middle.
  - done.
  - apply Forall_lookup. intros j y Hy.
    apply lookup_take_Some in Hy as [Hy Hj]. eauto.
Qed.

(** The Invincible branch: the first Invincible effect of the target rejects
    the attack and loses one use. *)
Lemma basic_attack_rejected h self target roll l1 e l2 :
  active_effects (h target) = Some (l1 ++ e :: l2) ->
  is_invincible e ->
  Forall (fun x => ~ is_invincible x) l1 ->
  exists h',
    basic_attack self target roll h
      = Ret (rejected_log (name (h self)) (name (h target)) (effect_belongs_to e)) h'
    /\ active_effects (h' target)
       = Some (if bool_decide (use_count e - 1 <= 0) then l1 ++ l2
               else l1 ++ spend_use e :: l2)
    /\ (forall r, health_points (h' r) = health_points (h r))
    /\ (forall r, defense_points (h' r) = defense_points (h r))
    /\ (forall r, attack_points (h' r) = attack_points (h r))
    /\ (forall r, luck (h' r) = luck (h r))
    /\ (forall r, name (h' r) = name (h r))
    /\ speed_points (h' self) = speed_points (h self) - 1
    /\ (forall r, r <> self -> speed_points (h' r) = speed_points (h r)).
Proof.
  intros Heff Hinv Hl1.
  unfold basic_attack, get_active_effect, decrement_use_count, read_use_count, remove_effect. run.
  frame. rewrite Heff.
  rewrite (find_first (fun item => effect_class item = SkillEffects.Invincible)) by done.
  frame. rewrite Heff. cbn.
  rewrite alter_middle, heap_update_eq. cbn. rewrite list_lookup_middle by done. cbn.
  case_bool_decide.
  - rewrite heap_update_eq. cbn. rewrite delete_middle.
    eexists. split; [reflexivity|].
    rewrite heap_update_eq. cbn. split; [done|].
    split_and!; intros; heap_simpl; done.
  - eexists. split; [reflexivity|].
    rewrite heap_update_eq. cbn. split; [done|].
    split_and!; intros; heap_simpl; done.
Qed.

(** [take_effect] in closed form. *)
Lemma take_effect_spec h attacker damage :
  take_effect attacker damage h
  = Ret (name (h attacker) +:+ "'s attack was met with a defensive shield, "
         +:+ "causing the damage to reflect back to themselves. "
         +:+ "(-" +:+ pretty (Z.min damage (defense_points (h attacker))) +:+ "DP and -"
         +:+ pretty (Z.max 0 (damage - defense_points (h attacker))) +:+ "HP)")
        (heap_update attacker
           (set_health_points
              (health_points (h attacker)
               - Z.max 0 (damage - defense_points (h attacker))))
           (heap_update attacker
              (set_defense_points
                 (defense_points (h attacker)
                  - Z.min damage (defense_points (h attacker))))
              h)).
Proof. unfold take_effect. run. heap_simpl. reflexivity. Qed.

(** The branch without effect: the roll decides the damage. *)
Lemma basic_attack_unprotected h self target roll :
  no_active_effects (h target) ->
  exists log h',
    basic_attack self target roll h = Ret log h'
    /\ health_points (h' target)
       = health_points (h target)
         - (if bool_decide (roll <= luck (h self)) then 2 * attack_points (h self)
            else Z.max (attack_points (h self) - defense_points (h target)) 0)
    /\ defense_points (h' target) = defense_points (h target) - 1
    /\ speed_points (h' self) = speed_points (h self) - 1
    /\ active_effects (h' target) = active_effects (h target).
Proof.
  intros Hnone.
  unfold basic_attack, get_active_effect. run.
  destruct Hnone as [Hnone | Hnone];
    repeat (progress (frame; rewrite ?Hnone; cbn));
    do 2 eexists; (split; [reflexivity|]);
    split_and!; heap_simpl; done.
Qed.

(** The ReflectiveShield branch: the attacker takes its own attack. *)
Lemma basic_attack_reflected h self target roll s rest :
  active_effects (h target) = Some (s :: rest) ->
  Forall is_shield (s :: rest) ->
  exists log h',
    basic_attack self target roll h = Ret log h'
    /\ defense_points (h' self)
       = defense_points (h self)
         - Z.min (attack_points (h self)) (defense_points (h self))
    /\ health_points (h' self)
       = health_points (h self)
         - Z.max 0 (attack_points (h self) - defense_points (h self))
    /\ speed_points (h' self) = speed_points (h self) - 1
    /\ (forall r, r <> self -> health_points (h' r) = health_points (h r))
    /\ (forall r, r <> self -> defense_points (h' r) = defense_points (h r))
    /\ active_effects (h' target)
       = Some (if bool_decide (use_count s - 1 = 0) then rest
               else spend_use s :: rest).
Proof.
  intros Heff Hshield.
  assert (Hnone : list_find (fun item => effect_class item = SkillEffects.Invincible)
                    (s :: rest) = None).
  { apply list_find_None. eapply Forall_impl; [exact Hshield|].
    unfold is_shield. intros x Hx. rewrite Hx. discriminate. }
  assert (Hs : effect_class s = SkillEffects.ReflectiveShield).
  { by inversion Hshield. }
  unfold basic_attack, get_active_effect, decrement_use_count, read_use_count, remove_effect. run.
  frame. rewrite Heff, Hnone. frame. rewrite Heff.
  cbn. rewrite decide_True by done. cbn.
  rewrite take_effect_spec. frame. rewrite Heff. cbn.
  rewrite heap_update_eq. cbn.
  case_bool_decide.
  - rewrite heap_update_eq. cbn.
    do 2 eexists. split; [reflexivity|].
    split_and!; intros; heap_simpl; done.
  - do 2 eexists. split; [reflexivity|].
    split_and!; intros; heap_simpl; done.
Qed.


(** use_skill with an index at or past the end: reported, nothing changes. *)
Lemma use_skill_index_past_end h self self_skills skill_index target amount pick :
  skills (h self) = Some self_skills ->
  Z.of_nat (length self_skills) <= skill_index ->
  use_skill self skill_index target amount pick h
  = Ret (PrintedNone ("skill_index (" +:+ pretty skill_index +:+ ") out of range")) h.
Proof.
  intros Hskills Hge. unfold use_skill. run. rewrite Hskills.
  rewrite bool_decide_true by lia. reflexivity.
Qed.

(** [any(...)] over a roster reads the heap and leaves it as it is. *)
Lemma any_alive_spec h characters :
  exists b, any_alive characters h = Ret b h
            /\ (b = true <-> Exists (alive h) characters).
Proof.
  induction characters as [|character rest IH].
  - exists false. split; [reflexivity|]. split; [discriminate|].
    intros H. inversion H.
  - cbn. unfold is_alive. run.
    destruct (decide (0 < health_points (h character))) as [Hpos|Hneg].
    + rewrite bool_decide_true by done. exists true. split; [reflexivity|].
      split; [|done]. intros _. by apply Exists_cons_hd.
    + rewrite bool_decide_false by done.
      destruct IH as (b & Hrun & Hb). exists b. split; [exact Hrun|].
      rewrite Hb. split.
      * apply Exists_cons_tl.
      * intros H. inversion H; subst; [contradiction|assumption].
Qed.

(** * Properties of the combat core *)

(** ** restore_stats *)




(** ** use_skill *)

(** C2.  For every caster and every valid index of a skill that requires a
    target and that the caster can afford, [use_skill] with that index and no
    target prints the missing-target line and returns [None]; but by then the
    costs of the skill have been taken: the caster's [speed_points] and
    [magic_points] are lower by [speed_points_cost] and [magic_points_cost]. *)
Theorem use_skill_missing_target_charges_cost
    h self self_skills skill_index skill mp amount pick :
  skills (h self) = Some self_skills ->
  0 <= skill_index ->
  self_skills !! Z.to_nat skill_index = Some skill ->
  require_target skill = true ->
  speed_points_cost skill <= speed_points (h self) ->
  magic_points (h self) = Some mp ->
  magic_points_cost skill <= mp ->
  exists h',
    use_skill self skill_index None amount pick h
      = Ret (PrintedNone "Skill requires a target argument.") h'
    /\ speed_points (h' self) = speed_points (h self) - speed_points_cost skill
    /\ magic_points (h' self) = Some (mp - magic_points_cost skill).
Proof.
  intros Hskills Hpos Hskill Htarget Hsp Hmp Hcost.
  assert (Hlen : (Z.to_nat skill_index < length self_skills)%nat)
    by (eapply lookup_lt_Some; eassumption).
  unfold use_skill, list_getitem, check_skill_cost. run. rewrite Hskills.
  rewrite bool_decide_false by lia. cbn.
  rewrite (bool_decide_false (skill_index < 0)) by lia.
  rewrite bool_decide_true by lia.
  rewrite Hskill. cbn.
  rewrite bool_decide_false by lia.
  rewrite Hmp. cbn.
  rewrite bool_decide_false by lia. cbn.
  frame. rewrite Hmp. cbn. rewrite Htarget.
  eexists. split; [reflexivity|].
  split; heap_simpl; done.
Qed.

(** The Tank, with 3 speed points and 7 magic points, calls Claw Swipe
    (index 1, costs 2 and 3) without a target: it is left with 1 and 4. *)
Lemma use_skill_missing_target_charges_cost_witness :
  exists h',
    use_skill 0%nat 1 None 30 0%nat (arena [])
      = Ret (PrintedNone "Skill requires a target argument.") h'
    /\ speed_points (arena [] 0%nat) = 3 /\ speed_points (h' 0%nat) = 1
    /\ magic_points (arena [] 0%nat) = Some 7 /\ magic_points (h' 0%nat) = Some 4.
Proof.
  destruct (use_skill_missing_target_charges_cost
              (arena []) 0%nat [whisker_guard; claw_swipe] 1 claw_swipe 7 30 0%nat)
    as (h' & Hrun & Hsp & Hmp);
    [reflexivity | lia | reflexivity | reflexivity | vm_compute; discriminate
    | reflexivity | vm_compute; discriminate |].
  exists h'. split_and!; [exact Hrun | reflexivity | exact Hsp | reflexivity | exact Hmp].
Defined.

(** C9.  For every caster and every negative skill index, [use_skill] never
    prints the out-of-range line: an index below [-len(skills)] leaves
    [use_skill] by an [IndexError] raised by [self.skills[skill_index]] (the
    heap is as before the call), and an index from [-len(skills)] to [-1] is
    taken for the position counted from the end, so that the call does what
    the call with [len(skills) + skill_index] does. *)
Theorem use_skill_negative_index
    h self self_skills skill_index target amount pick :
  skills (h self) = Some self_skills ->
  skill_index < 0 ->
  (skill_index < - Z.of_nat (length self_skills) ->
   use_skill self skill_index target amount pick h = Raise IndexError h)
  /\ (- Z.of_nat (length self_skills) <= skill_index ->
      use_skill self skill_index target amount pick h
      = use_skill self (Z.of_nat (length self_skills) + skill_index)
          target amount pick h).
Proof.
  intros Hskills Hneg. split.
  - intros Hlt. unfold use_skill, list_getitem. run. rewrite Hskills.
    rewrite bool_decide_false by lia. cbn.
    rewrite (bool_decide_true (skill_index < 0)) by lia.
    rewrite bool_decide_false by lia. reflexivity.
  - intros Hge. unfold use_skill, list_getitem. run. rewrite Hskills.
    rewrite !(bool_decide_false (_ >= _)) by lia. cbn.
    rewrite (bool_decide_true (skill_index < 0)) by lia.
    rewrite (bool_decide_false (_ + skill_index < 0)) by lia.
    replace (skill_index + Z.of_nat (length self_skills))
      with (Z.of_nat (length self_skills) + skill_index) by lia.
    reflexivity.
Qed.

(** The Tank has two skills: index -3 raises [IndexError], and index -1 is
    the call with index 1. *)
Lemma use_skill_negative_index_witness :
  use_skill 0%nat (-3) (Some 1%nat) 30 0%nat (arena []) = Raise IndexError (arena [])
  /\ use_skill 0%nat (-1) (Some 1%nat) 30 0%nat (arena [])
     = use_skill 0%nat 1 (Some 1%nat) 30 0%nat (arena []).
Proof.
  split.
  - apply (use_skill_negative_index
             (arena []) 0%nat [whisker_guard; claw_swipe] (-3) (Some 1%nat) 30 0%nat);
      [reflexivity | reflexivity | reflexivity].
  - apply (use_skill_negative_index
             (arena []) 0%nat [whisker_guard; claw_swipe] (-1) (Some 1%nat) 30 0%nat);
      [reflexivity | reflexivity | discriminate].
Defined.

(** ** basic_attack *)

(** C3.  For every attacker and every target with no active effect,
    [basic_attack] returns normally; when the critical roll fails (the roll is
    above the attacker's luck) the target's [health_points] drop by
    [max(attack_points - target.defense_points, 0)]; when it succeeds they
    drop by [2 * attack_points]; in both cases the target's [defense_points]
    drop by 1, with no clamping, and the attacker's [speed_points] drop by
    1. *)
Theorem basic_attack_without_effects h self target roll :
  no_active_effects (h target) ->
  exists log h',
    basic_attack self target roll h = Ret log h'
    /\ (luck (h self) < roll ->
        health_points (h' target)
        = health_points (h target)
          - Z.max (attack_points (h self) - defense_points (h target)) 0)
    /\ (roll <= luck (h self) ->
        health_points (h' target)
        = health_points (h target) - 2 * attack_points (h self))
    /\ defense_points (h' target) = defense_points (h target) - 1
    /\ speed_points (h' self) = speed_points (h self) - 1.
Proof.
  intros Hnone.
  destruct (basic_attack_unprotected h self target roll Hnone)
    as (log & h' & Hrun & Hhp & Hdp & Hsp & _).
  exists log, h'. split; [exact Hrun|].
  split_and!; try assumption.
  - intros Hfail. rewrite Hhp. rewrite bool_decide_false by lia. reflexivity.
  - intros Hcrit. rewrite Hhp. rewrite bool_decide_true by lia. reflexivity.
Qed.

(** The Tank (attack 10, luck 15) rolls 50 against the enemy (defense 5). *)
Lemma basic_attack_without_effects_witness :
  exists log h',
    basic_attack 0%nat 1%nat 50 (arena []) = Ret log h'
    /\ health_points (h' 1%nat) = 60 - 5
    /\ defense_points (h' 1%nat) = 5 - 1
    /\ speed_points (h' 0%nat) = 3 - 1.
Proof.
  destruct (basic_attack_without_effects (arena []) 0%nat 1%nat 50)
    as (log & h' & Hrun & Hfail & _ & Hdp & Hsp);
    [left; reflexivity |].
  exists log, h'. split_and!; [exact Hrun | apply Hfail; reflexivity | exact Hdp | exact Hsp].
Defined.

(** C4.  For every attacker and every damage value, [take_effect] of
    ReflectiveShield subtracts [min(damage, attacker.defense_points)] from the
    attacker's [defense_points] and [max(0, damage - attacker.defense_points)]
    from the attacker's [health_points], and the two losses add up to
    [damage]; and a basic attack by a character other than the target, into a
    target that holds ReflectiveShield effects only, leaves the
    [health_points] and [defense_points] of the target as they were, the
    attacker taking its own [attack_points] that way. *)
Theorem reflection_conservation :
  (forall h attacker damage,
     exists log h',
       take_effect attacker damage h = Ret log h'
       /\ defense_points (h' attacker)
          = defense_points (h attacker) - Z.min damage (defense_points (h attacker))
       /\ health_points (h' attacker)
          = health_points (h attacker) - Z.max 0 (damage - defense_points (h attacker))
       /\ Z.min damage (defense_points (h attacker))
          + Z.max 0 (damage - defense_points (h attacker)) = damage)
  /\ (forall h self target roll s rest,
        self <> target ->
        active_effects (h target) = Some (s :: rest) ->
        Forall is_shield (s :: rest) ->
        exists log h',
          basic_attack self target roll h = Ret log h'
          /\ health_points (h' target) = health_points (h target)
          /\ defense_points (h' target) = defense_points (h target)
          /\ defense_points (h' self)
             = defense_points (h self)
               - Z.min (attack_points (h self)) (defense_points (h self))
          /\ health_points (h' self)
             = health_points (h self)
               - Z.max 0 (attack_points (h self) - defense_points (h self))).
Proof.
  split.
  - intros h attacker damage. rewrite take_effect_spec.
    do 2 eexists. split; [reflexivity|].
    split_and!; heap_simpl; try done. lia.
  - intros h self target roll s rest Hdistinct Heff Hshield.
    destruct (basic_attack_reflected h self target roll s rest Heff Hshield)
      as (log & h' & Hrun & Hdp & Hhp & _ & Hhp_other & Hdp_other & _).
    exists log, h'. split; [exact Hrun|].
    split_and!; auto.
Qed.

(** The enemy (attack 12, defense 5) attacks the shielded MirrorMage: the
    MirrorMage keeps 70 and 6, the enemy loses 5 defense and 7 health. *)
Lemma reflection_conservation_witness :
  exists log h',
    basic_attack 1%nat 2%nat 50 (arena [new_ReflectiveShield]) = Ret log h'
    /\ health_points (h' 2%nat) = 70
    /\ defense_points (h' 2%nat) = 6
    /\ defense_points (h' 1%nat) = 5 - 5
    /\ health_points (h' 1%nat) = 60 - 7.
Proof.
  destruct reflection_conservation as [_ Hattack].
  destruct (Hattack (arena [new_ReflectiveShield]) 1%nat 2%nat 50
              new_ReflectiveShield [])
    as (log & h' & Hrun & Hhp & Hdp & Hdp_self & Hhp_self);
    [ discriminate | reflexivity
    | repeat constructor |].
  exists log, h'. split_and!; assumption.
Defined.

(** The shielded MirrorMage (attack 8, defense 6, health 70) attacks itself:
    the attacker is the target, the shield sends the attack back to it, and
    the shielded target loses its 6 points of defense and 2 points of
    health. *)
Lemma reflected_self_attack_changes_target :
  exists log h',
    basic_attack 2%nat 2%nat 50 (arena [new_ReflectiveShield]) = Ret log h'
    /\ health_points (arena [new_ReflectiveShield] 2%nat) = 70
    /\ health_points (h' 2%nat) = 68
    /\ defense_points (arena [new_ReflectiveShield] 2%nat) = 6
    /\ defense_points (h' 2%nat) = 0.
Proof.
  destruct (basic_attack_reflected (arena [new_ReflectiveShield]) 2%nat 2%nat 50
              new_ReflectiveShield [])
    as (log & h' & Hrun & Hdp & Hhp & _);
    [reflexivity | repeat constructor |].
  exists log, h'. split_and!;
    [exact Hrun | reflexivity | exact Hhp | reflexivity | exact Hdp].
Qed.

(** A MirrorMage that cast Illusionary Aura twice holds two Invincible
    effects, each with one use: the first attack uses up the first, and the
    second attack is rejected by the other, so it is not a normal attack. *)
Lemma stacked_invincible_rejects_second_attack :
  exists log1 h1 log2 h2,
    basic_attack 1%nat 2%nat 50 (arena [new_Invincible; new_Invincible]) = Ret log1 h1
    /\ basic_attack 1%nat 2%nat 50 h1 = Ret log2 h2
    /\ log2 = rejected_log "Viperstrike" "Purrception" "Illusionary Aura"
    /\ health_points (h2 2%nat) = 70
    /\ defense_points (h2 2%nat) = 6.
Proof.
  destruct (basic_attack_rejected
              (arena [new_Invincible; new_Invincible]) 1%nat 2%nat 50
              [] new_Invincible [new_Invincible])
    as (h1 & Hrun1 & Heff1 & Hhp1 & Hdp1 & _ & _ & Hname1 & _);
    [reflexivity | reflexivity | constructor |].
  destruct (basic_attack_rejected h1 1%nat 2%nat 50 [] new_Invincible [])
    as (h2 & Hrun2 & _ & Hhp2 & Hdp2 & _);
    [exact Heff1 | reflexivity | constructor |].
  rewrite !Hname1 in Hrun2.
  eexists _, h1, _, h2. split_and!.
  - exact Hrun1.
  - exact Hrun2.
  - reflexivity.
  - rewrite Hhp2, Hhp1. reflexivity.
  - rewrite Hdp2, Hdp1. reflexivity.
Qed.

(** C5.  For every target that holds exactly one Invincible effect, with
    [use_count = 1], a basic attack returns the rejection log, leaves the
    target's [health_points] and [defense_points] as they were and removes the
    effect, so that the target holds no Invincible effect any more.  A second
    basic attack in the resulting state is not rejected: it is a normal attack
    when the target holds no other effect, and it is reflected onto the
    attacker when the target still holds a ReflectiveShield. *)
Theorem invincible_consumption h self target roll roll2 l1 e l2 :
  active_effects (h target) = Some (l1 ++ e :: l2) ->
  is_invincible e ->
  use_count e = 1 ->
  Forall (fun x => ~ is_invincible x) (l1 ++ l2) ->
  exists h1,
    basic_attack self target roll h
      = Ret (rejected_log (name (h self)) (name (h target)) (effect_belongs_to e)) h1
    /\ health_points (h1 target) = health_points (h target)
    /\ defense_points (h1 target) = defense_points (h target)
    /\ active_effects (h1 target) = Some (l1 ++ l2)
    /\ get_active_effect target SkillEffects.Invincible h1 = Ret None h1
    /\ (l1 ++ l2 = [] ->
        exists log2 h2,
          basic_attack self target roll2 h1 = Ret log2 h2
          /\ (luck (h1 self) < roll2 ->
              health_points (h2 target)
              = health_points (h1 target)
                - Z.max (attack_points (h1 self) - defense_points (h1 target)) 0)
          /\ (roll2 <= luck (h1 self) ->
              health_points (h2 target)
              = health_points (h1 target) - 2 * attack_points (h1 self))
          /\ defense_points (h2 target) = defense_points (h1 target) - 1
          /\ speed_points (h2 self) = speed_points (h1 self) - 1)
    /\ (l1 ++ l2 <> [] ->
        exists log2 h2,
          basic_attack self target roll2 h1 = Ret log2 h2
          /\ defense_points (h2 self)
             = defense_points (h1 self)
               - Z.min (attack_points (h1 self)) (defense_points (h1 self))
          /\ health_points (h2 self)
             = health_points (h1 self)
               - Z.max 0 (attack_points (h1 self) - defense_points (h1 self))
          /\ speed_points (h2 self) = speed_points (h1 self) - 1).
Proof.
  intros Heff Hinv Hcount Hothers.
  assert (Hl1 : Forall (fun x => ~ is_invincible x) l1)
    by (apply Forall_app in Hothers; tauto).
  destruct (basic_attack_rejected h self target roll l1 e l2 Heff Hinv Hl1)
    as (h1 & Hrun & Heff1 & Hhp & Hdp & _).
  rewrite Hcount in Heff1. change (bool_decide (1 - 1 <= 0)) with true in Heff1.
  exists h1. split_and!; auto.
  - unfold get_active_effect. rewrite Heff1.
    replace (list_find _ (l1 ++ l2)) with (@None (nat * Effect)); [done|].
    symmetry. apply list_find_None. exact Hothers.
  - intros Hempty. rewrite Hempty in Heff1.
    destruct (basic_attack_unprotected h1 self target roll2)
      as (log2 & h2 & Hrun2 & Hhp2 & Hdp2 & Hsp2 & _); [by right|].
    exists log2, h2. split; [exact Hrun2|].
    split_and!; try assumption.
    + intros Hfail. rewrite Hhp2. rewrite bool_decide_false by lia. reflexivity.
    + intros Hcrit. rewrite Hhp2. rewrite bool_decide_true by lia. reflexivity.
  - intros Hheld.
    destruct (l1 ++ l2) as [|s rest] eqn:Hrest; [done|].
    destruct (basic_attack_reflected h1 self target roll2 s rest Heff1)
      as (log2 & h2 & Hrun2 & Hdp2 & Hhp2 & Hsp2 & _).
    { eapply Forall_impl; [exact Hothers|]. apply not_invincible_is_shield. }
    exists log2, h2. split_and!; assumption.
Qed.

(** The enemy attacks a MirrorMage that holds one Invincible effect, twice. *)
Lemma invincible_consumption_witness :
  exists h1,
    basic_attack 1%nat 2%nat 50 (arena [new_Invincible])
      = Ret (rejected_log "Viperstrike" "Purrception" "Illusionary Aura") h1
    /\ health_points (h1 2%nat) = 70
    /\ defense_points (h1 2%nat) = 6
    /\ active_effects (h1 2%nat) = Some []
    /\ exists log2 h2,
         basic_attack 1%nat 2%nat 50 h1 = Ret log2 h2
         /\ defense_points (h2 2%nat) = defense_points (h1 2%nat) - 1.
Proof.
  destruct (invincible_consumption (arena [new_Invincible]) 1%nat 2%nat 50 50
              [] new_Invincible [])
    as (h1 & Hrun & Hhp & Hdp & Heff & _ & Hnormal & _);
    [reflexivity | reflexivity | reflexivity | constructor |].
  exists h1. split_and!; try assumption.
  destruct (Hnormal eq_refl) as (log2 & h2 & Hrun2 & _ & _ & Hdp2 & _).
  exists log2, h2. split; assumption.
Defined.

(** C10.  For every target that holds both an Invincible effect and a
    ReflectiveShield effect, a basic attack is rejected by the first
    Invincible effect and spends one use of it only: the ReflectiveShield
    effects of the target are the same afterwards, in the same order and with
    the same [use_count], and neither the attacker nor the target loses
    [health_points] or [defense_points]. *)
Theorem invincible_shadows_shield h self target roll effects :
  active_effects (h target) = Some effects ->
  Exists is_invincible effects ->
  Exists is_shield effects ->
  exists l1 inv l2 h' effects',
    effects = l1 ++ inv :: l2
    /\ is_invincible inv
    /\ basic_attack self target roll h
       = Ret (rejected_log (name (h self)) (name (h target)) (effect_belongs_to inv)) h'
    /\ active_effects (h' target) = Some effects'
    /\ effects' = (if bool_decide (use_count inv - 1 <= 0) then l1 ++ l2
                   else l1 ++ spend_use inv :: l2)
    /\ filter is_shield effects' = filter is_shield effects
    /\ Exists is_shield effects'
    /\ health_points (h' self) = health_points (h self)
    /\ defense_points (h' self) = defense_points (h self)
    /\ health_points (h' target) = health_points (h target)
    /\ defense_points (h' target) = defense_points (h target).
Proof.
  intros Heff Hinvincible Hshield.
  destruct (first_invincible effects Hinvincible) as (l1 & inv & l2 & -> & Hinv & Hl1).
  destruct (basic_attack_rejected h self target roll l1 inv l2 Heff Hinv Hl1)
    as (h' & Hrun & Heff' & Hhp & Hdp & _).
  assert (Hfilter :
    filter is_shield (if bool_decide (use_count inv - 1 <= 0) then l1 ++ l2
                      else l1 ++ spend_use inv :: l2)
    = filter is_shield (l1 ++ inv :: l2)).
  { case_bool_decide; rewrite !filter_app;
      rewrite ?(filter_cons_False is_shield inv) by (by apply invincible_not_shield);
      rewrite ?(filter_cons_False is_shield (spend_use inv))
        by (by apply invincible_not_shield);
      reflexivity. }
  exists l1, inv, l2, h'. eexists. split_and!; try done.
  apply Exists_exists in Hshield as (s & Hs_in & Hs).
  apply Exists_exists. exists s. split; [|done].
  assert (Hs_filter : s ∈ filter is_shield (l1 ++ inv :: l2))
    by (apply list_elem_of_filter; done).
  rewrite <- Hfilter in Hs_filter. apply list_elem_of_filter in Hs_filter. tauto.
Qed.

(** The enemy attacks a MirrorMage that cast Reflective Shield and then
    Illusionary Aura. *)
Lemma invincible_shadows_shield_witness :
  exists l1 inv l2 h' effects',
    [new_ReflectiveShield; new_Invincible] = l1 ++ inv :: l2
    /\ is_invincible inv
    /\ basic_attack 1%nat 2%nat 50 (arena [new_ReflectiveShield; new_Invincible])
       = Ret (rejected_log "Viperstrike" "Purrception" (effect_belongs_to inv)) h'
    /\ active_effects (h' 2%nat) = Some effects'
    /\ effects' = (if bool_decide (use_count inv - 1 <= 0) then l1 ++ l2
                   else l1 ++ spend_use inv :: l2)
    /\ filter is_shield effects' = [new_ReflectiveShield]
    /\ Exists is_shield effects'
    /\ health_points (h' 1%nat) = 60
    /\ defense_points (h' 1%nat) = 5
    /\ health_points (h' 2%nat) = 70
    /\ defense_points (h' 2%nat) = 6.
Proof.
  apply (invincible_shadows_shield
           (arena [new_ReflectiveShield; new_Invincible]) 1%nat 2%nat 50
           [new_ReflectiveShield; new_Invincible]).
  - reflexivity.
  - apply Exists_cons_tl, Exists_cons_hd. reflexivity.
  - apply Exists_cons_hd. reflexivity.
Defined.

(** ** GameManager *)

(** C6.  For every pair of rosters, [is_game_over] and [player_won] return
    without changing the heap; [is_game_over] returns [True] if and only if
    every member of the player roster is not alive or every member of the
    enemy roster is not alive; [player_won] returns [True] if and only if the
    game is over, some player character is alive and no enemy is alive. *)
Theorem game_end_criterion (self : GameManager) (h : heap) :
  exists game_over won,
    is_game_over self h = Ret game_over h
    /\ player_won self h = Ret won h
    /\ (game_over = true <->
        Forall (fun c => ~ alive h c) (player_characters self)
        \/ Forall (fun c => ~ alive h c) (enemies self))
    /\ (won = true <->
        game_over = true
        /\ Exists (alive h) (player_characters self)
        /\ Forall (fun c => ~ alive h c) (enemies self)).
Proof.
  destruct (any_alive_spec h (player_characters self)) as (bp & Hp & Hbp).
  destruct (any_alive_spec h (enemies self)) as (be & He & Hbe).
  assert (Hnp : bp = false <-> Forall (fun c => ~ alive h c) (player_characters self)).
  { rewrite Forall_Exists_neg, <- Hbp. destruct bp; split; congruence. }
  assert (Hne : be = false <-> Forall (fun c => ~ alive h c) (enemies self)).
  { rewrite Forall_Exists_neg, <- Hbe. destruct be; split; congruence. }
  unfold player_won, is_game_over. run.
  destruct bp, be; repeat (progress (cbn [negb]; rewrite ?Hp, ?He)).
  - exists false, false. split_and!; try reflexivity.
    + split; [discriminate|]. intros [H|H]; [apply Hnp in H|apply Hne in H]; discriminate.
    + split; [discriminate|]. intros [? _]. discriminate.
  - exists true, true. split_and!; try reflexivity.
    + split; [|done]. intros _. right. by apply Hne.
    + split; [|done]. intros _. split_and!; [done|by apply Hbp|by apply Hne].
  - exists true, false. split_and!; try reflexivity.
    + split; [|done]. intros _. left. by apply Hnp.
    + split; [discriminate|]. intros (_ & H & _). apply Hbp in H. discriminate.
  - exists true, false. split_and!; try reflexivity.
    + split; [|done]. intros _. left. by apply Hnp.
    + split; [discriminate|]. intros (_ & H & _). apply Hbp in H. discriminate.
Qed.

(** C7.  For every idle character (one that is not an enemy has
    [magic_points]), [update_idle_character_stats] returns normally, raises
    [speed_points] by exactly 1, leaves [defense_points] equal to
    [max(defense_points, 0)], hence not negative, raises [magic_points] by 1
    when the character is not an [EnemyCharacter] and leaves them as they are
    when it is one; no other character changes. *)
Theorem idle_regeneration h idle :
  (is_enemy (h idle) = false -> is_Some (magic_points (h idle))) ->
  exists h',
    update_idle_character_stats idle h = Ret tt h'
    /\ speed_points (h' idle) = speed_points (h idle) + 1
    /\ defense_points (h' idle) = Z.max (defense_points (h idle)) 0
    /\ 0 <= defense_points (h' idle)
    /\ magic_points (h' idle)
       = (if is_enemy (h idle) then magic_points (h idle)
          else (fun mp => mp + 1) <$> magic_points (h idle))
    /\ (forall r, r <> idle -> h' r = h r).
Proof.
  intros Hmagic.
  unfold update_idle_character_stats. run. frame.
  destruct (is_enemy (h idle)) eqn:Henemy; cbn.
  - eexists. split; [reflexivity|].
    split_and!; intros; heap_simpl; try done. lia.
  - destruct (Hmagic eq_refl) as [mp Hmp].
    frame. rewrite Hmp. cbn.
    eexists. split; [reflexivity|].
    split_and!; intros; heap_simpl; try done. lia.
Qed.

(** The Tank idles: 3 speed points become 4 and 7 magic points become 8. *)
Lemma idle_regeneration_witness :
  exists h',
    update_idle_character_stats 0%nat (arena []) = Ret tt h'
    /\ speed_points (h' 0%nat) = 3 + 1
    /\ defense_points (h' 0%nat) = 3
    /\ 0 <= defense_points (h' 0%nat)
    /\ magic_points (h' 0%nat) = Some 8
    /\ (forall r, r <> 0%nat -> h' r = arena [] r).
Proof.
  apply (idle_regeneration (arena []) 0%nat).
  intros _. exists 7. reflexivity.
Defined.

(** C8.  For every pair of active characters with unequal [speed_points] and
    for every pair of random tie-break values, [determine_turn_order] returns,
    without changing the heap, the one of the two with the higher
    [speed_points]. *)
Theorem turn_order_higher_speed (self : GameManager) (random_enemy random_player : Z)
    (h : heap) :
  speed_points (h (active_enemy_character self))
  <> speed_points (h (active_player_character self)) ->
  exists first,
    determine_turn_order self random_enemy random_player h = Ret first h
    /\ first
       = (if bool_decide (speed_points (h (active_player_character self))
                          < speed_points (h (active_enemy_character self)))
          then active_enemy_character self
          else active_player_character self)
    /\ speed_points (h first)
       = Z.max (speed_points (h (active_enemy_character self)))
               (speed_points (h (active_player_character self))).
Proof.
  intros Hspeed.
  eexists. split; [|split; [reflexivity|]].
  - unfold determine_turn_order, sorted_descending. cbn.
    unfold key_lt. cbn.
    repeat case_bool_decide; cbn; first [reflexivity | lia].
  - case_bool_decide; lia.
Qed.

(** The enemy (speed 4) plays before the Tank (speed 3). *)
Lemma turn_order_higher_speed_witness :
  exists first,
    determine_turn_order sample_manager 7 9 (arena []) = Ret first (arena [])
    /\ first = 1%nat
    /\ speed_points (arena [] first) = 4.
Proof.
  apply (turn_order_higher_speed sample_manager 7 9 (arena [])).
  discriminate.
Defined.

(** * Further properties *)

(** ** check_skill_cost and use_skill *)

Lemma check_skill_cost_returns h self skill mp :
  magic_points (h self) = Some mp ->
  exists log,
    check_skill_cost self skill h
    = Ret (bool_decide (speed_points_cost skill <= speed_points (h self)
                        /\ magic_points_cost skill <= mp), log) h.
Proof.
  intros Hmp. unfold check_skill_cost. run.
  case_bool_decide as Hsp; cbn beta.
  - eexists. rewrite bool_decide_false by lia. reflexivity.
  - rewrite Hmp. case_bool_decide as Hm; cbn beta; eexists.
    + rewrite bool_decide_false by lia. reflexivity.
    + rewrite bool_decide_true by lia. reflexivity.
Qed.

(** X1.  For every character that has magic points, [check_skill_cost]
    changes nothing and returns [True] exactly when the speed points and the
    magic points both cover the costs of the skill; the log is empty then,
    and otherwise it names the speed points when they are short, and the
    magic points only when the speed points suffice. *)
Theorem check_skill_cost_spec h self skill mp :
  magic_points (h self) = Some mp ->
  exists log,
    check_skill_cost self skill h
    = Ret (bool_decide (speed_points_cost skill <= speed_points (h self)
                        /\ magic_points_cost skill <= mp), log) h
    /\ (speed_points_cost skill <= speed_points (h self) ->
        magic_points_cost skill <= mp -> log = ""%string)
    /\ (speed_points (h self) < speed_points_cost skill ->
        log = "Not enough speed points. You need "
              +:+ pretty (speed_points_cost skill) +:+ " but only "
              +:+ "have " +:+ pretty (speed_points (h self)) +:+ ".")
    /\ (speed_points_cost skill <= speed_points (h self) ->
        mp < magic_points_cost skill ->
        log = "Not enough magic points. You need "
              +:+ pretty (magic_points_cost skill) +:+ " but only "
              +:+ "have " +:+ pretty mp +:+ ".").
Proof.
  intros Hmp. unfold check_skill_cost. run.
  case_bool_decide as Hsp; cbn beta.
  - eexists. split; [rewrite bool_decide_false by lia; reflexivity|].
    split_and!; intros; first [reflexivity | lia].
  - rewrite Hmp. case_bool_decide as Hm; cbn beta; eexists.
    + split; [rewrite bool_decide_false by lia; reflexivity|].
      split_and!; intros; first [reflexivity | lia].
    + split; [rewrite bool_decide_true by lia; reflexivity|].
      split_and!; intros; first [reflexivity | lia].
Qed.

(** The Tank (3 speed points, 7 magic points) can pay Claw Swipe (2 and 3). *)
Lemma check_skill_cost_spec_witness :
  magic_points (arena [] 0%nat) = Some 7
  /\ exists log,
       check_skill_cost 0%nat claw_swipe (arena []) = Ret (true, log) (arena [])
       /\ log = ""%string.
Proof.
  split; [reflexivity|].
  destruct (check_skill_cost_spec (arena []) 0%nat claw_swipe 7)
    as (log & Hrun & Hlog & _); [reflexivity|].
  exists log. split; [exact Hrun|].
  apply Hlog; vm_compute; discriminate.
Defined.

(** ** basic_attack: the heap it leaves *)

Lemma basic_attack_unprotected_heap h self target roll :
  no_active_effects (h target) ->
  exists log,
    basic_attack self target roll h
    = Ret log
        (heap_update target (set_defense_points (defense_points (h target) - 1))
           (heap_update target
              (set_health_points
                 (health_points (h target)
                  - (if bool_decide (roll <= luck (h self))
                     then 2 * attack_points (h self)
                     else Z.max (attack_points (h self) - defense_points (h target)) 0)))
              (heap_update self (set_speed_points (speed_points (h self) - 1)) h))).
Proof.
  intros Hnone.
  unfold basic_attack, get_active_effect. run.
  destruct Hnone as [Hnone | Hnone];
    repeat (progress (frame; rewrite ?Hnone; cbn));
    eexists; reflexivity.
Qed.

Lemma basic_attack_rejected_heap h self target roll l1 e l2 :
  active_effects (h target) = Some (l1 ++ e :: l2) ->
  is_invincible e ->
  Forall (fun x => ~ is_invincible x) l1 ->
  exists h',
    basic_attack self target roll h
      = Ret (rejected_log (name (h self)) (name (h target)) (effect_belongs_to e)) h'
    /\ forall r,
         h' r
         = heap_update target
             (set_active_effects
                (if bool_decide (use_count e - 1 <= 0) then l1 ++ l2
                 else l1 ++ spend_use e :: l2))
             (heap_update self (set_speed_points (speed_points (h self) - 1)) h) r.
Proof.
  intros Heff Hinv Hl1.
  unfold basic_attack, get_active_effect, decrement_use_count, read_use_count, remove_effect. run.
  frame. rewrite Heff.
  rewrite (find_first (fun item => effect_class item = SkillEffects.Invincible)) by done.
  frame. rewrite Heff. cbn.
  rewrite alter_middle, heap_update_eq. cbn. rewrite list_lookup_middle by done. cbn.
  case_bool_decide.
  - rewrite heap_update_eq. cbn. rewrite delete_middle.
    eexists. split; [reflexivity|].
    intros r. unfold heap_update. repeat case_decide; reflexivity.
  - eexists. split; [reflexivity|].
    intros r. unfold heap_update. repeat case_decide; reflexivity.
Qed.

Lemma basic_attack_reflected_heap h self target roll s rest :
  active_effects (h target) = Some (s :: rest) ->
  Forall is_shield (s :: rest) ->
  exists log h',
    basic_attack self target roll h = Ret log h'
    /\ forall r,
         h' r
         = heap_update target
             (set_active_effects
                (if bool_decide (use_count s - 1 = 0) then rest
                 else spend_use s :: rest))
             (heap_update self
                (set_health_points
                   (health_points (h self)
                    - Z.max 0 (attack_points (h self) - defense_points (h self))))
                (heap_update self
                   (set_defense_points
                      (defense_points (h self)
                       - Z.min (attack_points (h self)) (defense_points (h self))))
                   (heap_update self (set_speed_points (speed_points (h self) - 1)) h))) r.
Proof.
  intros Heff Hshield.
  assert (Hnone : list_find (fun item => effect_class item = SkillEffects.Invincible)
                    (s :: rest) = None).
  { apply list_find_None. eapply Forall_impl; [exact Hshield|].
    unfold is_shield. intros x Hx. rewrite Hx. discriminate. }
  assert (Hs : effect_class s = SkillEffects.ReflectiveShield).
  { by inversion Hshield. }
  unfold basic_attack, get_active_effect, decrement_use_count, read_use_count, remove_effect. run.
  frame. rewrite Heff, Hnone. frame. rewrite Heff.
  cbn. rewrite decide_True by done. cbn.
  rewrite take_effect_spec. frame. rewrite Heff. cbn.
  rewrite heap_update_eq. cbn.
  case_bool_decide.
  - rewrite heap_update_eq. cbn.
    do 2 eexists. split; [reflexivity|].
    intros r. heap_simpl. unfold heap_update. repeat case_decide; reflexivity.
  - do 2 eexists. split; [reflexivity|].
    intros r. heap_simpl. unfold heap_update. repeat case_decide; reflexivity.
Qed.

(** The three ways a list of effects meets an attack. *)
Lemma effects_cases (l : list Effect) :
  l = []
  \/ (exists l1 e l2,
        l = l1 ++ e :: l2 /\ is_invincible e
        /\ Forall (fun x => ~ is_invincible x) l1)
  \/ (exists s rest, l = s :: rest /\ Forall is_shield (s :: rest)).
Proof.
  destruct (decide (Exists is_invincible l)) as [Hinv|Hnone].
  - right. left. destruct (first_invincible l Hinv) as (l1 & e & l2 & ? & ? & ?).
    eauto 10.
  - apply Forall_Exists_neg in Hnone.
    destruct l as [|s rest]; [by left|]. right. right.
    exists s, rest. split; [done|].
    eapply Forall_impl; [exact Hnone|]. apply not_invincible_is_shield.
Qed.

(** X2.  For every attacker, target and roll, whatever effects the target
    holds or lacks, [basic_attack] returns a log and raises nothing; it takes
    exactly one speed point from the attacker, even at zero or below, and
    changes no other speed, no attack points, no luck and no magic points; it
    leaves every character other than the two as it was; and when the
    attacker's attack points are not negative, nobody's health points go
    up. *)
Theorem basic_attack_always_returns h self target roll :
  exists log h',
    basic_attack self target roll h = Ret log h'
    /\ speed_points (h' self) = speed_points (h self) - 1
    /\ (forall r, r <> self -> speed_points (h' r) = speed_points (h r))
    /\ (forall r, attack_points (h' r) = attack_points (h r)
                  /\ luck (h' r) = luck (h r)
                  /\ magic_points (h' r) = magic_points (h r))
    /\ (forall r, r <> self -> r <> target -> h' r = h r)
    /\ (0 <= attack_points (h self) ->
        forall r, health_points (h' r) <= health_points (h r)).
Proof.
  destruct (active_effects (h target)) as [l|] eqn:Heff;
    [destruct (effects_cases l) as [->|[(l1 & e & l2 & -> & He & Hl1)|(s & rest & -> & Hs)]]|].
  - destruct (basic_attack_unprotected_heap h self target roll) as (log & Hrun);
      [by right|].
    do 2 eexists. split; [exact Hrun|].
    split_and!; intros; heap_simpl; try done.
    destruct (decide (target = r)) as [->|]; heap_simpl; [|lia].
    case_bool_decide; lia.
  - destruct (basic_attack_rejected_heap h self target roll l1 e l2 Heff He Hl1)
      as (h' & Hrun & Hh').
    do 2 eexists. split; [exact Hrun|].
    split_and!; intros; rewrite ?Hh'; heap_simpl; try done.
  - destruct (basic_attack_reflected_heap h self target roll s rest Heff Hs)
      as (log & h' & Hrun & Hh').
    do 2 eexists. split; [exact Hrun|].
    split_and!; intros; rewrite ?Hh'; heap_simpl; try done.
    destruct (decide (self = r)) as [->|]; heap_simpl; lia.
  - destruct (basic_attack_unprotected_heap h self target roll) as (log & Hrun);
      [by left|].
    do 2 eexists. split; [exact Hrun|].
    split_and!; intros; heap_simpl; try done.
    destruct (decide (target = r)) as [->|]; heap_simpl; [|lia].
    case_bool_decide; lia.
Qed.

(** ** heal *)

(** X3.  For every character and every drawn amount, [heal] adds the amount
    to [health_points] with no cap at [max_health_points], takes one speed
    point without checking that one is left, and changes nothing else, of
    this character or of another: the character it leaves is the one it
    found with these two assignments made, every other attribute as it
    was. *)
Theorem heal_uncapped h self hp_increase :
  exists h',
    heal self hp_increase h
      = Ret (name (h self) +:+ " used heal and gained " +:+ pretty hp_increase +:+ "HP.") h'
    /\ health_points (h' self) = health_points (h self) + hp_increase
    /\ speed_points (h' self) = speed_points (h self) - 1
    /\ h' self
       = set_health_points (health_points (h self) + hp_increase)
           (set_speed_points (speed_points (h self) - 1) (h self))
    /\ (class_of (h' self) = class_of (h self)
        /\ name (h' self) = name (h self)
        /\ job_class (h' self) = job_class (h self)
        /\ attack_points (h' self) = attack_points (h self)
        /\ defense_points (h' self) = defense_points (h self)
        /\ magic_points (h' self) = magic_points (h self)
        /\ luck (h' self) = luck (h self)
        /\ skills (h' self) = skills (h self)
        /\ active_effects (h' self) = active_effects (h self)
        /\ max_health_points (h' self) = max_health_points (h self)
        /\ max_defense_points (h' self) = max_defense_points (h self)
        /\ character_image (h' self) = character_image (h self)
        /\ ascii_art (h' self) = ascii_art (h self)
        /\ starting_column_position (h' self) = starting_column_position (h self))
    /\ (forall r, r <> self -> h' r = h r).
Proof.
  unfold heal. run. frame.
  eexists. split; [reflexivity|].
  split_and!; intros; heap_simpl; done.
Qed.

(** ** skills.py: use *)

(** Every message of a class names only the fields that its [use] passes to
    [format]. *)
Lemma message_self c pick cn :
  reads_target c = false -> c <> Skills.BaseSkill -> (pick < 3)%nat ->
  exists m text,
    class_message_displays c !! pick = Some m
    /\ format_from {[ "character" := cn ]} m None = inr text.
Proof.
  intros Hc Hb Hp.
  destruct c; try discriminate; try congruence;
    (destruct pick as [|[|[|?]]]; [| | |lia]);
    do 2 eexists; (split; [reflexivity|]); vm_compute; reflexivity.
Qed.

Lemma message_target c pick cn tn :
  reads_target c = true -> (pick < 3)%nat ->
  exists m text,
    class_message_displays c !! pick = Some m
    /\ format_from {[ "character" := cn; "target" := tn ]} m None = inr text.
Proof.
  intros Hc Hp.
  destruct c; try discriminate;
    (destruct pick as [|[|[|?]]]; [| | |lia]);
    do 2 eexists; (split; [reflexivity|]); vm_compute; reflexivity.
Qed.

(** X4.  For every target and every drawn damage, [ClawSwipe.use] returns
    its log for each of its three messages, sets the target's
    [defense_points] to 0 and takes from its [health_points] only the part of
    the damage above its defense, [max(damage - defense_points, 0)]: the
    target never gains health, and no other character changes. *)
Theorem claw_swipe_effect h attr character target amount pick :
  (pick < 3)%nat ->
  exists log h',
    use (new_skill Skills.ClawSwipe attr) character (Some target) amount pick h
      = Ret log h'
    /\ defense_points (h' target) = 0
    /\ health_points (h' target)
       = health_points (h target) - Z.max (amount - defense_points (h target)) 0
    /\ health_points (h' target) <= health_points (h target)
    /\ (forall r, r <> target -> h' r = h r).
Proof.
  intros Hpick.
  destruct (message_target Skills.ClawSwipe pick (name (h character)) (name (h target)))
    as (m & text & Hm & Htext); [done|done|].
  unfold use, choice, format, deref. cbn [skill_class new_skill message_displays]. run.
  rewrite Hm.
  case_bool_decide; cbn beta; frame; rewrite Htext;
    do 2 eexists; (split; [reflexivity|]);
    split_and!; intros; heap_simpl; first [done | lia].
Qed.

(** The Tank swipes the enemy (health 60, defense 5) for 30. *)
Lemma claw_swipe_effect_witness :
  exists log h',
    use (new_skill Skills.ClawSwipe sample_skill_row) 0%nat (Some 1%nat) 30 0%nat
      (arena []) = Ret log h'
    /\ defense_points (h' 1%nat) = 0
    /\ health_points (h' 1%nat) = 60 - Z.max (30 - 5) 0.
Proof.
  destruct (claw_swipe_effect (arena []) sample_skill_row 0%nat 1%nat 30 0%nat)
    as (log & h' & Hrun & Hdp & Hhp & _); [lia|].
  exists log, h'. split_and!; [exact Hrun | exact Hdp | exact Hhp].
Defined.

(** X5.  For every target and every drawn damage, [PurrfectStrike.use]
    returns its log for each of its three messages, sets the target's
    [defense_points] to 0 and takes the whole damage from its
    [health_points], whatever its defense was; no other character
    changes. *)
Theorem purrfect_strike_effect h attr character target amount pick :
  (pick < 3)%nat ->
  exists log h',
    use (new_skill Skills.PurrfectStrike attr) character (Some target) amount pick h
      = Ret log h'
    /\ defense_points (h' target) = 0
    /\ health_points (h' target) = health_points (h target) - amount
    /\ (forall r, r <> target -> h' r = h r).
Proof.
  intros Hpick.
  destruct (message_target Skills.PurrfectStrike pick (name (h character)) (name (h target)))
    as (m & text & Hm & Htext); [done|done|].
  unfold use, choice, format, deref. cbn [skill_class new_skill message_displays]. run.
  rewrite Hm. frame. rewrite Htext.
  do 2 eexists. split; [reflexivity|].
  split_and!; intros; heap_simpl; done.
Qed.

(** The Tank strikes the enemy (health 60, defense 5) for 20. *)
Lemma purrfect_strike_effect_witness :
  exists log h',
    use (new_skill Skills.PurrfectStrike sample_skill_row) 0%nat (Some 1%nat) 20 0%nat
      (arena []) = Ret log h'
    /\ defense_points (h' 1%nat) = 0
    /\ health_points (h' 1%nat) = 60 - 20.
Proof.
  destruct (purrfect_strike_effect (arena []) sample_skill_row 0%nat 1%nat 20 0%nat)
    as (log & h' & Hrun & Hdp & Hhp & _); [lia|].
  exists log, h'. split_and!; [exact Hrun | exact Hdp | exact Hhp].
Defined.

(** X6.  For every target and every drawn reduction, [CripplingStrike.use]
    returns its log for each of its three messages and leaves the target
    with [max(0, speed_points - reduction)] speed points: never below zero,
    so that a target whose speed was negative ends at zero; no other
    character changes. *)
Theorem crippling_strike_floor h attr character target amount pick :
  (pick < 3)%nat ->
  exists log h',
    use (new_skill Skills.CripplingStrike attr) character (Some target) amount pick h
      = Ret log h'
    /\ speed_points (h' target) = Z.max 0 (speed_points (h target) - amount)
    /\ 0 <= speed_points (h' target)
    /\ (forall r, r <> target -> h' r = h r).
Proof.
  intros Hpick.
  destruct (message_target Skills.CripplingStrike pick (name (h character)) (name (h target)))
    as (m & text & Hm & Htext); [done|done|].
  unfold use, choice, format, deref. cbn [skill_class new_skill message_displays]. run.
  rewrite Hm. frame. rewrite Htext.
  do 2 eexists. split; [reflexivity|].
  split_and!; intros; heap_simpl; first [done | lia].
Qed.

(** The enemy has 4 speed points; a reduction of 10 leaves it 0. *)
Lemma crippling_strike_floor_witness :
  exists log h',
    use (new_skill Skills.CripplingStrike sample_skill_row) 0%nat (Some 1%nat) 10 0%nat
      (arena []) = Ret log h'
    /\ speed_points (h' 1%nat) = Z.max 0 (4 - 10)
    /\ 0 <= speed_points (h' 1%nat).
Proof.
  destruct (crippling_strike_floor (arena []) sample_skill_row 0%nat 1%nat 10 0%nat)
    as (log & h' & Hrun & Hsp & Hfloor & _); [lia|].
  exists log, h'. split_and!; [exact Hrun | exact Hsp | exact Hfloor].
Defined.

(** X7.  For each of the three skills that act on their caster,
    [WhiskerGuard], [HealingPurr] and [LuckyCharm], [use] returns its log for
    each of its three messages whether a target is given or not, and adds
    the drawn amount to the caster's [defense_points], the drawn amount to
    its [health_points], or 5 to its [luck] (with no cap); the two other
    statistics of the caster and every other character stay as they
    were. *)
Theorem self_skill_effect h attr c character target amount pick :
  c = Skills.WhiskerGuard \/ c = Skills.HealingPurr \/ c = Skills.LuckyCharm ->
  (pick < 3)%nat ->
  exists log h',
    use (new_skill c attr) character target amount pick h = Ret log h'
    /\ defense_points (h' character)
       = defense_points (h character)
         + (if bool_decide (c = Skills.WhiskerGuard) then amount else 0)
    /\ health_points (h' character)
       = health_points (h character)
         + (if bool_decide (c = Skills.HealingPurr) then amount else 0)
    /\ luck (h' character)
       = luck (h character) + (if bool_decide (c = Skills.LuckyCharm) then 5 else 0)
    /\ (forall r, r <> character -> h' r = h r).
Proof.
  intros Hc Hpick.
  assert (Hself : reads_target c = false /\ c <> Skills.BaseSkill)
    by (destruct Hc as [Hc|[Hc|Hc]]; rewrite Hc; done).
  destruct Hself as [Hself Hbase].
  destruct (message_self c pick (name (h character)) Hself Hbase Hpick)
    as (m & text & Hm & Htext).
  destruct Hc as [Hc|[Hc|Hc]]; subst c;
    unfold use, choice, format, deref; cbn [skill_class new_skill message_displays]; run;
    rewrite Hm; frame; rewrite Htext;
    do 2 eexists; (split; [reflexivity|]);
    split_and!; intros; heap_simpl; repeat case_bool_decide;
    first [done | lia].
Qed.

(** The Tank (defense 3) raises its guard by 9, the enemy given as target. *)
Lemma self_skill_effect_witness :
  exists log h',
    use (new_skill Skills.WhiskerGuard sample_skill_row) 0%nat (Some 1%nat) 9 0%nat
      (arena []) = Ret log h'
    /\ defense_points (h' 0%nat) = 3 + 9
    /\ (forall r, r <> 0%nat -> h' r = arena [] r).
Proof.
  destruct (self_skill_effect (arena []) sample_skill_row Skills.WhiskerGuard
              0%nat (Some 1%nat) 9 0%nat)
    as (log & h' & Hrun & Hdp & _ & _ & Hframe); [by left | lia |].
  exists log, h'. split_and!; [exact Hrun | exact Hdp | exact Hframe].
Defined.

(** X8.  For each of the four skills that read their target, [use] with no
    target raises [AttributeError].  [ClawSwipe], [PurrfectStrike] and
    [CripplingStrike] raise it before any change; [ReflectiveShield] raises
    it after it has appended its effect, so the caster holds the shield
    although the call failed. *)
Theorem use_without_target h attr c character amount pick :
  reads_target c = true ->
  (pick < 3)%nat ->
  exists attr_name h',
    use (new_skill c attr) character None amount pick h
      = Raise (AttributeError attr_name) h'
    /\ (c <> Skills.ReflectiveShield -> h' = h)
    /\ (c = Skills.ReflectiveShield ->
        forall items, active_effects (h character) = Some items ->
        active_effects (h' character) = Some (items ++ [new_ReflectiveShield])).
Proof.
  intros Hc Hpick.
  destruct c; try discriminate;
    unfold use, choice, format, deref; cbn [skill_class new_skill message_displays]; run.
  - do 2 eexists. split; [reflexivity|]. split; [done|]. congruence.
  - destruct (active_effects (h character)) as [items|] eqn:Heff.
    + destruct (message_target Skills.ReflectiveShield pick "" "")
        as (m & text & Hm & _); [done|done|].
      rewrite Hm. do 2 eexists. split; [reflexivity|]. split; [congruence|].
      intros _ items' [= <-]. heap_simpl. done.
    + do 2 eexists. split; [reflexivity|]. split; [congruence|].
      intros _ items' ?. discriminate.
  - do 2 eexists. split; [reflexivity|]. split; [done|]. congruence.
  - do 2 eexists. split; [reflexivity|]. split; [done|]. congruence.
Qed.

(** The MirrorMage casts Reflective Shield without a target. *)
Lemma use_without_target_witness :
  exists attr_name h',
    use (new_skill Skills.ReflectiveShield sample_skill_row) 2%nat None 0 0%nat
      (arena []) = Raise (AttributeError attr_name) h'
    /\ active_effects (h' 2%nat) = Some [new_ReflectiveShield].
Proof.
  destruct (use_without_target (arena []) sample_skill_row Skills.ReflectiveShield
              2%nat 0 0%nat)
    as (attr_name & h' & Hrun & _ & Hshield); [reflexivity | lia |].
  exists attr_name, h'. split; [exact Hrun|].
  apply (Hshield eq_refl []). reflexivity.
Defined.

(** ** Effects: cast, then attacked *)

Lemma illusionary_aura_heap h attr character target amount pick items :
  active_effects (h character) = Some items ->
  (pick < 3)%nat ->
  exists log,
    use (new_skill Skills.IllusionaryAura attr) character target amount pick h
    = Ret log (heap_update character (set_active_effects (items ++ [new_Invincible])) h).
Proof.
  intros Heff Hpick.
  destruct (message_self Skills.IllusionaryAura pick (name (h character)))
    as (m & text & Hm & Htext); [done|done|done|].
  unfold use, choice, format, deref. cbn [skill_class new_skill message_displays]. run.
  rewrite Heff, Hm. frame. rewrite Htext.
  eexists. reflexivity.
Qed.

Lemma reflective_shield_heap h attr character target amount pick items :
  active_effects (h character) = Some items ->
  (pick < 3)%nat ->
  exists log,
    use (new_skill Skills.ReflectiveShield attr) character (Some target) amount pick h
    = Ret log
        (heap_update character (set_active_effects (items ++ [new_ReflectiveShield])) h).
Proof.
  intros Heff Hpick.
  destruct (message_target Skills.ReflectiveShield pick (name (h character)) (name (h target)))
    as (m & text & Hm & Htext); [done|done|].
  unfold use, choice, format, deref. cbn [skill_class new_skill message_displays]. run.
  rewrite Heff, Hm. frame. rewrite Htext.
  eexists. reflexivity.
Qed.

(** X9.  For every character that holds no Invincible effect,
    [IllusionaryAura.use] appends one, and the next [basic_attack] on the
    character is rejected by it: the attack returns the rejection log, the
    list of effects is again what it was before the cast, and nobody's
    [health_points] or [defense_points] have changed since before the
    cast. *)
Theorem illusionary_aura_absorbs_next_attack
    h attr character attacker target amount pick roll items :
  active_effects (h character) = Some items ->
  Forall (fun e => ~ is_invincible e) items ->
  (pick < 3)%nat ->
  exists log h1 h2,
    use (new_skill Skills.IllusionaryAura attr) character target amount pick h
      = Ret log h1
    /\ active_effects (h1 character) = Some (items ++ [new_Invincible])
    /\ basic_attack attacker character roll h1
       = Ret (rejected_log (name (h attacker)) (name (h character)) "Illusionary Aura") h2
    /\ active_effects (h2 character) = Some items
    /\ (forall r, health_points (h2 r) = health_points (h r)
                  /\ defense_points (h2 r) = defense_points (h r)).
Proof.
  intros Heff Hitems Hpick.
  destruct (illusionary_aura_heap h attr character target amount pick items Heff Hpick)
    as (log & Hcast).
  set (h1 := heap_update character (set_active_effects (items ++ [new_Invincible])) h) in *.
  assert (Heff1 : active_effects (h1 character) = Some (items ++ [new_Invincible]))
    by (subst h1; heap_simpl; done).
  destruct (basic_attack_rejected_heap h1 attacker character roll items new_Invincible []
              Heff1 eq_refl Hitems) as (h2 & Hattack & Hh2).
  exists log, h1, h2. split_and!; try done.
  - rewrite Hattack. subst h1. heap_simpl. done.
  - rewrite Hh2. subst h1. heap_simpl. by rewrite app_nil_r.
  - intros r. rewrite Hh2. subst h1. heap_simpl. done.
Qed.

(** The MirrorMage casts the aura and the enemy attacks. *)
Lemma illusionary_aura_absorbs_next_attack_witness :
  exists log h1 h2,
    use (new_skill Skills.IllusionaryAura sample_skill_row) 2%nat None 0 0%nat
      (arena []) = Ret log h1
    /\ active_effects (h1 2%nat) = Some [new_Invincible]
    /\ basic_attack 1%nat 2%nat 50 h1
       = Ret (rejected_log "Viperstrike" "Purrception" "Illusionary Aura") h2
    /\ active_effects (h2 2%nat) = Some [].
Proof.
  destruct (illusionary_aura_absorbs_next_attack (arena []) sample_skill_row
              2%nat 1%nat None 0 0%nat 50 [])
    as (log & h1 & h2 & Hcast & Heff1 & Hattack & Heff2 & _);
    [reflexivity | constructor | lia |].
  exists log, h1, h2. split_and!; [exact Hcast | exact Heff1 | exact Hattack | exact Heff2].
Defined.

(** X10.  For every character with an empty list of effects,
    [ReflectiveShield.use] appends one shield, and the next [basic_attack] by
    another character is reflected: the shield is used up and the list is
    empty again, the character keeps its [health_points] and
    [defense_points], and the attacker loses
    [min(attack_points, defense_points)] defense and
    [max(0, attack_points - defense_points)] health of its own. *)
Theorem reflective_shield_reflects_next_attack
    h attr character attacker target amount pick roll :
  active_effects (h character) = Some [] ->
  attacker <> character ->
  (pick < 3)%nat ->
  exists log1 h1 log2 h2,
    use (new_skill Skills.ReflectiveShield attr) character (Some target) amount pick h
      = Ret log1 h1
    /\ active_effects (h1 character) = Some [new_ReflectiveShield]
    /\ basic_attack attacker character roll h1 = Ret log2 h2
    /\ active_effects (h2 character) = Some []
    /\ health_points (h2 character) = health_points (h character)
    /\ defense_points (h2 character) = defense_points (h character)
    /\ defense_points (h2 attacker)
       = defense_points (h attacker)
         - Z.min (attack_points (h attacker)) (defense_points (h attacker))
    /\ health_points (h2 attacker)
       = health_points (h attacker)
         - Z.max 0 (attack_points (h attacker) - defense_points (h attacker)).
Proof.
  intros Heff Hdistinct Hpick.
  destruct (reflective_shield_heap h attr character target amount pick [] Heff Hpick)
    as (log1 & Hcast).
  set (h1 := heap_update character (set_active_effects ([] ++ [new_ReflectiveShield])) h) in *.
  assert (Heff1 : active_effects (h1 character) = Some [new_ReflectiveShield])
    by (subst h1; heap_simpl; done).
  destruct (basic_attack_reflected_heap h1 attacker character roll new_ReflectiveShield []
              Heff1) as (log2 & h2 & Hattack & Hh2); [repeat constructor|].
  exists log1, h1, log2, h2. split_and!; try done;
    rewrite Hh2; subst h1; heap_simpl; done.
Qed.

(** The MirrorMage raises the shield and the enemy (attack 12, defense 5,
    health 60) attacks. *)
Lemma reflective_shield_reflects_next_attack_witness :
  exists log1 h1 log2 h2,
    use (new_skill Skills.ReflectiveShield sample_skill_row) 2%nat (Some 1%nat) 0 0%nat
      (arena []) = Ret log1 h1
    /\ basic_attack 1%nat 2%nat 50 h1 = Ret log2 h2
    /\ active_effects (h2 2%nat) = Some []
    /\ health_points (h2 2%nat) = 70
    /\ defense_points (h2 1%nat) = 5 - Z.min 12 5
    /\ health_points (h2 1%nat) = 60 - Z.max 0 (12 - 5).
Proof.
  destruct (reflective_shield_reflects_next_attack (arena []) sample_skill_row
              2%nat 1%nat 1%nat 0 0%nat 50)
    as (log1 & h1 & log2 & h2 & Hcast & _ & Hattack & Heff & Hhp & _ & Hdp' & Hhp');
    [reflexivity | discriminate | lia |].
  exists log1, h1, log2, h2.
  split_and!; [exact Hcast | exact Hattack | exact Heff | exact Hhp | exact Hdp' | exact Hhp'].
Defined.

(** ** Several Invincible effects *)

Lemma filter_shield_no_invincible (items : list Effect) :
  Forall (fun e => ~ is_invincible e) items -> filter is_shield items = items.
Proof.
  induction 1 as [|e items He _ IH]; [done|].
  rewrite filter_cons_True by (by apply not_invincible_is_shield). by rewrite IH.
Qed.

Lemma filter_invincible_none (items : list Effect) :
  Forall (fun e => ~ is_invincible e) items -> filter is_invincible items = [].
Proof.
  induction 1 as [|e items He _ IH]; [done|].
  by rewrite filter_cons_False.
Qed.

(** X11.  For every target whose Invincible effects have one use each, as
    many basic attacks in a row as it holds such effects are all rejected,
    each by the first Invincible effect left, in list order; afterwards the
    target holds its ReflectiveShield effects only, unchanged and in order,
    nobody's [health_points] or [defense_points] have changed, and the
    attacker has paid one speed point for each attack. *)
Theorem invincible_effects_absorb_one_attack_each h self target rolls items :
  active_effects (h target) = Some items ->
  Forall (fun e => is_invincible e -> use_count e = 1) items ->
  length rolls = length (filter is_invincible items) ->
  exists h',
    basic_attacks self target rolls h
      = Ret (map (fun e => rejected_log (name (h self)) (name (h target))
                             (effect_belongs_to e))
               (filter is_invincible items)) h'
    /\ active_effects (h' target) = Some (filter is_shield items)
    /\ (forall r, health_points (h' r) = health_points (h r)
                  /\ defense_points (h' r) = defense_points (h r))
    /\ speed_points (h' self) = speed_points (h self) - Z.of_nat (length rolls).
Proof.
  revert h items. induction rolls as [|roll rolls IH]; intros h items Heff Hcount Hlen.
  - symmetry in Hlen. apply length_zero_iff_nil in Hlen.
    assert (Hnone : Forall (fun e => ~ is_invincible e) items).
    { apply Forall_forall. intros e He Hinv.
      assert (e ∈ filter is_invincible items) by (by apply list_elem_of_filter).
      rewrite Hlen in *. by eapply not_elem_of_nil. }
    exists h. rewrite Hlen, filter_shield_no_invincible by done.
    split_and!; try done. cbn. lia.
  - destruct (decide (Exists is_invincible items)) as [Hex|Hnone];
      [|apply Forall_Exists_neg in Hnone;
        rewrite filter_invincible_none in Hlen by done; discriminate].
    destruct (first_invincible items Hex) as (l1 & e & l2 & -> & He & Hl1).
    destruct (basic_attack_rejected_heap h self target roll l1 e l2 Heff He Hl1)
      as (h1 & Hattack & Hh1).
    assert (Huse : use_count e = 1).
    { rewrite Forall_app, Forall_cons in Hcount. tauto. }
    rewrite Huse in Hh1. change (bool_decide (1 - 1 <= 0)) with true in Hh1. cbn iota in Hh1.
    rewrite filter_app, filter_cons_True, (filter_invincible_none l1) in * by done.
    cbn [app length] in Hlen.
    destruct (IH h1 (l1 ++ l2)) as (h' & Hrest & Heff' & Hstats & Hspeed).
    { rewrite Hh1. heap_simpl. done. }
    { rewrite Forall_app, Forall_cons in Hcount. rewrite Forall_app. tauto. }
    { rewrite filter_app, (filter_invincible_none l1) by done. cbn. lia. }
    exists h'. split_and!.
    + cbn [basic_attacks]. run. rewrite Hattack, Hrest.
      rewrite filter_app, (filter_invincible_none l1) by done.
      rewrite !Hh1. heap_simpl. done.
    + rewrite Heff'. rewrite !filter_app.
      rewrite (filter_cons_False is_shield e) by (by apply invincible_not_shield). done.
    + intros r. destruct (Hstats r) as [-> ->]. rewrite !Hh1. heap_simpl. done.
    + rewrite Hspeed, Hh1. heap_simpl. cbn [length]. lia.
Qed.

(** Two auras around a shield: the enemy attacks twice. *)
Lemma invincible_effects_absorb_one_attack_each_witness :
  exists h',
    basic_attacks 1%nat 2%nat [50; 60]
      (arena [new_Invincible; new_ReflectiveShield; new_Invincible])
    = Ret [rejected_log "Viperstrike" "Purrception" "Illusionary Aura";
           rejected_log "Viperstrike" "Purrception" "Illusionary Aura"] h'
    /\ active_effects (h' 2%nat) = Some [new_ReflectiveShield]
    /\ speed_points (h' 1%nat) = 4 - 2.
Proof.
  destruct (invincible_effects_absorb_one_attack_each
              (arena [new_Invincible; new_ReflectiveShield; new_Invincible])
              1%nat 2%nat [50; 60]
              [new_Invincible; new_ReflectiveShield; new_Invincible])
    as (h' & Hrun & Heff & _ & Hsp);
    [reflexivity | repeat constructor | reflexivity |].
  exists h'. split_and!; [exact Hrun | exact Heff | exact Hsp].
Defined.

(** ** use_skill *)

(** A method keeps a relation between the heap it finds and the heap it
    leaves when each of its steps does. *)
Section Keeps.
Context (P : heap -> heap -> Prop).
Hypothesis P_refl : forall h, P h h.
Hypothesis P_trans : forall h1 h2 h3, P h1 h2 -> P h2 h3 -> P h1 h3.

Lemma keeps_ret {A} (a : A) : keeps P (mret a).
Proof. intros h. apply P_refl. Qed.

Lemma keeps_raise {A} e : keeps P (@raise A e).
Proof. intros h. apply P_refl. Qed.

Lemma keeps_bind {A B} (m : M A) (k : A -> M B) :
  keeps P m -> (forall a, keeps P (k a)) -> keeps P (m ≫= k).
Proof.
  intros Hm Hk h. specialize (Hm h). unfold mbind, M_bind, bind.
  destruct (m h) as [a h1|e h1]; cbn in *; [|done].
  eapply P_trans; [exact Hm|]. apply Hk.
Qed.

Lemma keeps_getattr {A} r (attr : Character -> A) : keeps P (getattr r attr).
Proof. intros h. apply P_refl. Qed.

Lemma keeps_getattr_opt {A} r attr_name (attr : Character -> option A) :
  keeps P (getattr_opt r attr_name attr).
Proof. intros h. unfold getattr_opt. case_match; apply P_refl. Qed.

Lemma keeps_setattr r set :
  (forall h, P h (heap_update r set h)) -> keeps P (setattr r set).
Proof. intros Hset h. apply Hset. Qed.

Lemma keeps_choice {A} (seq : list A) pick : keeps P (choice seq pick).
Proof. unfold choice. case_match; [apply keeps_ret|apply keeps_raise]. Qed.

Lemma keeps_format template fields : keeps P (format template fields).
Proof. unfold format. case_match; [apply keeps_raise|apply keeps_ret]. Qed.

Lemma keeps_deref target attr_name : keeps P (deref target attr_name).
Proof. unfold deref. case_match; [apply keeps_ret|apply keeps_raise]. Qed.

Lemma keeps_list_getitem {A} (seq : list A) i : keeps P (list_getitem seq i).
Proof.
  unfold list_getitem. repeat case_match;
    first [apply keeps_ret | apply keeps_raise].
Qed.
End Keeps.

Ltac keeps_step Hrefl Htrans :=
  first
    [ apply (keeps_bind _ Htrans); [|intros ?]
    | apply (keeps_ret _ Hrefl)
    | apply (keeps_raise _ Hrefl)
    | apply (keeps_getattr _ Hrefl)
    | apply (keeps_getattr_opt _ Hrefl)
    | apply (keeps_choice _ Hrefl)
    | apply (keeps_format _ Hrefl)
    | apply (keeps_deref _ Hrefl)
    | apply (keeps_list_getitem _ Hrefl)
    | apply keeps_setattr; intros ?
    | case_bool_decide ].

Lemma use_keeps_points skill character target amount pick :
  keeps points_kept (use skill character target amount pick).
Proof.
  assert (Hrefl : forall h, points_kept h h) by (intros h r; done).
  assert (Htrans : forall h1 h2 h3,
             points_kept h1 h2 -> points_kept h2 h3 -> points_kept h1 h3).
  { intros h1 h2 h3 H12 H23 r. destruct (H12 r) as [E1 S1], (H23 r) as [E2 S2].
    split; [congruence|auto]. }
  unfold use. destruct (skill_class skill).
  all: repeat keeps_step Hrefl Htrans.
  all: intros r; frame; split; [done|];
    try match goal with |- context [heap_update ?a _ _ r] =>
          destruct (decide (a = r)) as [->|] end;
    heap_simpl; lia.
Qed.

(** X12.  For every character whose speed points and magic points are not
    negative, and for every call of [use_skill], whatever the index, the
    target and the skill, and whether the call returns or raises, the
    character's speed points and magic points are not negative in the heap
    the call leaves: a skill is never paid with points that the character
    does not have. *)
Theorem use_skill_never_overdraws h self skill_index target amount pick mp :
  magic_points (h self) = Some mp ->
  0 <= speed_points (h self) ->
  0 <= mp ->
  let h' := heap_after (use_skill self skill_index target amount pick h) in
  0 <= speed_points (h' self)
  /\ exists mp', magic_points (h' self) = Some mp' /\ 0 <= mp'.
Proof.
  intros Hmp Hsp Hmp0. cbn zeta.
  unfold use_skill, check_skill_cost. run.
  destruct (skills (h self)) as [self_skills|]; cbn; [|eauto].
  case_bool_decide; cbn; [eauto|].
  destruct (list_getitem self_skills skill_index h) as [skill h0|e h0] eqn:Hget.
  2:{ pose proof (keeps_list_getitem (fun h h' => h' = h) (fun _ => eq_refl)
                   self_skills skill_index h) as Hh. cbn in Hh. rewrite Hget in Hh.
      cbn in Hh. subst h0. eauto. }
  pose proof (keeps_list_getitem (fun h h' => h' = h) (fun _ => eq_refl)
                self_skills skill_index h) as Hh. cbn in Hh. rewrite Hget in Hh.
  cbn in Hh. subst h0.
  case_bool_decide; cbn; [eauto|].
  rewrite Hmp. cbn.
  case_bool_decide; cbn; [eauto|].
  frame. rewrite Hmp. cbn.
  set (h1 := heap_update self _ (heap_update self _ h)).
  assert (Hh1 : 0 <= speed_points (h1 self)
                /\ exists mp', magic_points (h1 self) = Some mp' /\ 0 <= mp').
  { subst h1. heap_simpl. split; [lia|]. eexists. split; [done|lia]. }
  assert (Huse : forall t,
    0 <= speed_points (heap_after (use skill self t amount pick h1) self)
    /\ exists mp', magic_points (heap_after (use skill self t amount pick h1) self) = Some mp'
                   /\ 0 <= mp').
  { intros t. destruct (use_keeps_points skill self t amount pick h1 self) as [E S].
    rewrite E. destruct Hh1 as [? ?]. auto. }
  destruct target as [t|].
  - specialize (Huse (Some t)).
    destruct (use skill self (Some t) amount pick h1); exact Huse.
  - destruct (require_target skill); [exact Hh1|].
    specialize (Huse None).
    destruct (use skill self None amount pick h1); exact Huse.
Qed.

(** The Tank uses Claw Swipe on the enemy. *)
Lemma use_skill_never_overdraws_witness :
  0 <= speed_points
         (heap_after (use_skill 0%nat 1 (Some 1%nat) 30 0%nat (arena [])) 0%nat)
  /\ exists mp',
       magic_points
         (heap_after (use_skill 0%nat 1 (Some 1%nat) 30 0%nat (arena [])) 0%nat)
       = Some mp'
       /\ 0 <= mp'.
Proof.
  apply (use_skill_never_overdraws (arena []) 0%nat 1 (Some 1%nat) 30 0%nat 7);
    [reflexivity | vm_compute; discriminate | lia].
Defined.

(** X13.  For every character with skills and every index at or past the
    end of its list of skills, [use_skill] prints that the index is out of
    range and returns [None]; nothing changes, whatever the target.  A
    character without the [skills] attribute (an enemy) gets an
    [AttributeError] instead, the heap unchanged as well. *)
Theorem use_skill_index_too_large h self skill_index target amount pick :
  (forall self_skills,
     skills (h self) = Some self_skills ->
     Z.of_nat (length self_skills) <= skill_index ->
     use_skill self skill_index target amount pick h
     = Ret (PrintedNone ("skill_index (" +:+ pretty skill_index +:+ ") out of range")) h)
  /\ (skills (h self) = None ->
      use_skill self skill_index target amount pick h
      = Raise (AttributeError "skills") h).
Proof.
  split.
  - intros self_skills Hskills Hlarge.
    by apply (use_skill_index_past_end h self self_skills).
  - intros Hnone. unfold use_skill. run. rewrite Hnone. reflexivity.
Qed.

(** X14.  For every character and every valid index of a skill whose speed
    cost or magic cost the character cannot pay, [use_skill] returns the
    pair [(False, log)] of [check_skill_cost] and changes nothing: no points
    are taken and the skill is not used. *)
Theorem use_skill_unaffordable
    h self self_skills skill_index skill mp target amount pick :
  skills (h self) = Some self_skills ->
  0 <= skill_index ->
  self_skills !! Z.to_nat skill_index = Some skill ->
  magic_points (h self) = Some mp ->
  speed_points (h self) < speed_points_cost skill \/ mp < magic_points_cost skill ->
  exists log,
    use_skill self skill_index target amount pick h = Ret (CostCheck false log) h
    /\ check_skill_cost self skill h = Ret (false, log) h.
Proof.
  intros Hskills Hpos Hskill Hmp Hshort.
  assert (Hlen : (Z.to_nat skill_index < length self_skills)%nat)
    by (eapply lookup_lt_Some; eassumption).
  destruct (check_skill_cost_returns h self skill mp Hmp) as (log & Hcheck).
  rewrite bool_decide_false in Hcheck by lia.
  exists log. split; [|exact Hcheck].
  unfold use_skill, list_getitem. run. rewrite Hskills.
  rewrite bool_decide_false by lia. cbn.
  rewrite (bool_decide_false (skill_index < 0)) by lia.
  rewrite bool_decide_true by lia.
  rewrite Hskill. cbn. rewrite Hcheck. reflexivity.
Qed.

(** The Tank, left without speed points, tries Whisker Guard (cost 1). *)
Lemma use_skill_unaffordable_witness :
  exists log,
    use_skill 0%nat 0 (Some 1%nat) 30 0%nat
      (heap_update 0%nat (set_speed_points 0) (arena []))
    = Ret (CostCheck false log) (heap_update 0%nat (set_speed_points 0) (arena [])).
Proof.
  destruct (use_skill_unaffordable
              (heap_update 0%nat (set_speed_points 0) (arena []))
              0%nat [whisker_guard; claw_swipe] 0 whisker_guard 7 (Some 1%nat) 30 0%nat)
    as (log & Hrun & _);
    [reflexivity | lia | reflexivity | reflexivity | left; reflexivity |].
  exists log. exact Hrun.
Defined.

(** X15.  For every character, every valid index of a skill that it can pay
    and every target, [use_skill] first takes the two costs and then runs
    the [use] of the skill on the heap so paid: it returns the log of [use]
    when [use] returns, and when [use] raises, the exception leaves
    [use_skill] with the costs already taken. *)
Theorem use_skill_pays_then_uses
    h self self_skills skill_index skill mp target amount pick :
  skills (h self) = Some self_skills ->
  0 <= skill_index ->
  self_skills !! Z.to_nat skill_index = Some skill ->
  magic_points (h self) = Some mp ->
  speed_points_cost skill <= speed_points (h self) ->
  magic_points_cost skill <= mp ->
  let paid :=
    heap_update self (set_magic_points (mp - magic_points_cost skill))
      (heap_update self
         (set_speed_points (speed_points (h self) - speed_points_cost skill)) h) in
  use_skill self skill_index (Some target) amount pick h
  = match use skill self (Some target) amount pick paid with
    | Ret log h' => Ret (UseLog log) h'
    | Raise e h' => Raise e h'
    end.
Proof.
  intros Hskills Hpos Hskill Hmp Hsp Hcost paid.
  assert (Hlen : (Z.to_nat skill_index < length self_skills)%nat)
    by (eapply lookup_lt_Some; eassumption).
  destruct (check_skill_cost_returns h self skill mp Hmp) as (log & Hcheck).
  rewrite bool_decide_true in Hcheck by lia.
  unfold use_skill, list_getitem. run. rewrite Hskills.
  rewrite bool_decide_false by lia. cbn.
  rewrite (bool_decide_false (skill_index < 0)) by lia.
  rewrite bool_decide_true by lia.
  rewrite Hskill. cbn. rewrite Hcheck. cbn.
  frame. rewrite Hmp. cbn. subst paid.
  destruct (use skill self (Some target) amount pick _); reflexivity.
Qed.

(** The Tank (3 speed points, 7 magic points) uses Claw Swipe (2 and 3). *)
Lemma use_skill_pays_then_uses_witness :
  use_skill 0%nat 1 (Some 1%nat) 30 0%nat (arena [])
  = match
      use claw_swipe 0%nat (Some 1%nat) 30 0%nat
        (heap_update 0%nat (set_magic_points (7 - 3))
           (heap_update 0%nat (set_speed_points (3 - 2)) (arena [])))
    with
    | Ret log h' => Ret (UseLog log) h'
    | Raise e h' => Raise e h'
    end.
Proof.
  apply (use_skill_pays_then_uses (arena []) 0%nat [whisker_guard; claw_swipe]
           1 claw_swipe 7 1%nat 30 0%nat);
    [reflexivity | lia | reflexivity | reflexivity
    | vm_compute; discriminate | vm_compute; discriminate].
Defined.

(** ** enemies.py *)

(** X16.  For every character that has [max_defense_points], [defend] sets
    [defense_points] to that maximum and returns its log; unlike an attack
    or a heal it costs no speed point, and it changes neither the
    character's health nor any other character. *)
Theorem defend_restores_defense h self max_dp :
  max_defense_points (h self) = Some max_dp ->
  exists h',
    defend self h = Ret (name (h self) +:+ " restored its defense points!") h'
    /\ defense_points (h' self) = max_dp
    /\ health_points (h' self) = health_points (h self)
    /\ speed_points (h' self) = speed_points (h self)
    /\ (forall r, r <> self -> h' r = h r).
Proof.
  intros Hmax. unfold defend. run. rewrite Hmax. frame.
  eexists. split; [reflexivity|].
  split_and!; intros; heap_simpl; done.
Qed.

(** The enemy, whose defense is at most 5. *)
Lemma defend_restores_defense_witness :
  exists h',
    defend 1%nat (arena []) = Ret ("Viperstrike" +:+ " restored its defense points!") h'
    /\ defense_points (h' 1%nat) = 5
    /\ speed_points (h' 1%nat) = 4.
Proof.
  destruct (defend_restores_defense (arena []) 1%nat 5)
    as (h' & Hrun & Hdp & _ & Hsp & _); [reflexivity|].
  exists h'. split_and!; [exact Hrun | exact Hdp | exact Hsp].
Defined.

(** ** game_manager.py *)

Lemma is_alive_spec h character :
  is_alive character h = Ret (bool_decide (alive h character)) h.
Proof. reflexivity. Qed.

Lemma next_alive_spec h characters :
  next_alive characters h
  = Ret (match list_find (alive h) characters with
         | Some (_, c) => Next c
         | None => StopIteration
         end) h.
Proof.
  induction characters as [|c rest IH]; [reflexivity|].
  cbn [next_alive]. run. rewrite is_alive_spec.
  cbn [list_find]. case_bool_decide as Hc.
  - rewrite decide_True by done. reflexivity.
  - rewrite decide_False by done. rewrite IH.
    destruct (list_find (alive h) rest) as [[i c']|]; reflexivity.
Qed.

Lemma is_game_over_spec self h :
  is_game_over self h = Ret (bool_decide (~ game_on self h)) h.
Proof.
  destruct (any_alive_spec h (player_characters self)) as (bp & Hp & Hbp).
  destruct (any_alive_spec h (enemies self)) as (be & He & Hbe).
  unfold is_game_over. run. rewrite Hp.
  destruct bp; cbn [negb].
  - rewrite He. f_equal. destruct be; cbn [negb]; symmetry.
    + apply bool_decide_eq_false. unfold game_on. intros Hno. apply Hno.
      split; [by apply Hbp|by apply Hbe].
    + apply bool_decide_eq_true. unfold game_on. intros [_ H]. apply Hbe in H. discriminate.
  - f_equal. symmetry. apply bool_decide_eq_true. unfold game_on.
    intros [H _]. apply Hbp in H. discriminate.
Qed.

Lemma list_find_alive h characters :
  Exists (alive h) characters ->
  exists i c, list_find (alive h) characters = Some (i, c).
Proof.
  intros (c & Hin & Hc)%Exists_exists.
  destruct (list_find_elem_of (alive h) characters c Hin Hc) as [[i c'] Hfind].
  eauto.
Qed.

Lemma deque_append_length maxlen d x :
  (0 < maxlen)%nat ->
  (length (deque_append maxlen d x) <= maxlen)%nat
  /\ last (deque_append maxlen d x) = Some x
  /\ ((length d < maxlen)%nat -> deque_append maxlen d x = d ++ [x]).
Proof.
  intros Hpos. unfold deque_append. split_and!.
  - rewrite length_drop, length_app. cbn. lia.
  - rewrite last_lookup, lookup_drop, length_drop, length_app. cbn.
    replace (length d + 1 - maxlen + pred (length d + 1 - (length d + 1 - maxlen)))%nat
      with (length d) by lia.
    by rewrite list_lookup_middle.
  - intros Hlt. rewrite length_app. cbn.
    replace (length d + 1 - maxlen)%nat with 0%nat by lia. reflexivity.
Qed.

(** X17.  For every manager, character and opponent,
    [handle_defeated_character] returns and never lets the [StopIteration]
    of [next] escape; it sets the health of the defeated character to 0 and
    changes no other character; the line of the defeat is the last of the
    battle log, which holds five lines at most; when both sides still have
    a member alive, the active character of the side of the defeated one (an
    enemy when it is an [EnemyCharacter], a player otherwise) becomes the
    first member alive of that roster, in roster order, and the other active
    character stays; when the game is over both stay. *)
Theorem handle_defeated_character_spec self character opponent current_time h :
  let h' := heap_update character (set_health_points 0) h in
  let line :=
    current_time +:+ name (h character) +:+ " has been defeated by "
    +:+ name (h opponent) +:+ "!" in
  exists self',
    handle_defeated_character self character opponent current_time h
      = Ret (Next self') h'
    /\ player_characters self' = player_characters self
    /\ enemies self' = enemies self
    /\ last (battle_log self') = Some line
    /\ (length (battle_log self') <= 5)%nat
    /\ (~ game_on self h' ->
        active_player_character self' = active_player_character self
        /\ active_enemy_character self' = active_enemy_character self)
    /\ (game_on self h' ->
        if is_enemy (h character) then
          active_player_character self' = active_player_character self
          /\ exists i,
               list_find (alive h') (enemies self)
               = Some (i, active_enemy_character self')
        else
          active_enemy_character self' = active_enemy_character self
          /\ exists i,
               list_find (alive h') (player_characters self)
               = Some (i, active_player_character self')).
Proof.
  intros h' line.
  destruct (deque_append_length battle_log_maxlen (battle_log self) line)
    as (Hlen & Hlast & _); [unfold battle_log_maxlen; lia|].
  unfold handle_defeated_character. run. frame.
  fold h'. rewrite is_game_over_spec. fold line.
  set (self1 := set_battle_log _ self).
  assert (Hon : game_on self1 h' <-> game_on self h') by done.
  case_bool_decide as Hover; cbn [negb].
  - exists self1. split; [reflexivity|].
    split_and!; try done; intros Hgame; by apply Hon in Hgame.
  - destruct Hover as [Hplayers Henemies].
    subst h'. frame. set (h' := heap_update _ _ h) in *.
    destruct (is_enemy (h character)) eqn:Henemy.
    + rewrite next_alive_spec.
      destruct (list_find_alive h' (enemies self1) Henemies) as (i & c & Hfind).
      rewrite Hfind. eexists. split; [reflexivity|].
      split_and!; try done.
      * intros Hno. exfalso. apply Hno. by split.
      * intros _. split; [done|]. exists i. exact Hfind.
    + rewrite next_alive_spec.
      destruct (list_find_alive h' (player_characters self1) Hplayers) as (i & c & Hfind).
      rewrite Hfind. eexists. split; [reflexivity|].
      split_and!; try done.
      * intros Hno. exfalso. apply Hno. by split.
      * intros _. split; [done|]. exists i. exact Hfind.
Qed.

Lemma list_getitem_0 {A} (seq : list A) h :
  list_getitem seq 0 h
  = match seq with
    | x :: _ => Ret x h
    | [] => Raise IndexError h
    end.
Proof.
  unfold list_getitem. rewrite (bool_decide_false (0 < 0)) by lia.
  rewrite bool_decide_true by lia. destruct seq; reflexivity.
Qed.

(** X18.  [GameManager(player_characters, enemies)] raises [IndexError]
    when one of the two lists is empty; otherwise it returns a manager that
    keeps the two lists, whose active characters are the first player and
    the first enemy, whose turn character is the one of these two with the
    larger speed, and whose battle log is empty; it changes no
    character. *)
Theorem GameManager_init_spec (players foes : list ref)
    (random_enemy random_player : Z) (h : heap) :
  (players = [] \/ foes = [] ->
   GameManager_init players foes random_enemy random_player h
   = Raise IndexError h)
  /\ (forall player rest enemy others,
        players = player :: rest ->
        foes = enemy :: others ->
        exists self,
          GameManager_init players foes random_enemy random_player h
          = Ret self h
          /\ player_characters self = players
          /\ enemies self = foes
          /\ active_player_character self = player
          /\ active_enemy_character self = enemy
          /\ (turn_character self = player \/ turn_character self = enemy)
          /\ speed_points (h (turn_character self))
             = Z.max (speed_points (h player)) (speed_points (h enemy))
          /\ battle_log self = []).
Proof.
  split.
  - intros Hempty. unfold GameManager_init. run. rewrite list_getitem_0.
    destruct players as [|player rest]; [reflexivity|].
    rewrite list_getitem_0. destruct Hempty as [?| ->]; [discriminate|reflexivity].
  - intros player rest enemy others -> ->.
    unfold GameManager_init. run. rewrite !list_getitem_0.
    unfold determine_turn_order, sorted_descending. cbn. unfold key_lt. cbn.
    repeat case_bool_decide; cbn; eexists; (split; [reflexivity|]); cbn;
      split_and!; first [done | by left | by right | lia].
Qed.

(** X19.  For every manager and every character that the menu returned,
    [switch_active_player_characters] makes the chosen character the active
    player exactly when it is alive and leaves the active player as it was
    otherwise; so an active player that is alive is never replaced by a
    defeated one.  The heap, the rosters, the active enemy and the battle
    log do not change. *)
Theorem switch_never_selects_defeated self chosen_character h :
  exists self' log,
    switch_active_player_characters self chosen_character h = Ret (self', log) h
    /\ active_player_character self'
       = (if bool_decide (alive h chosen_character) then chosen_character
          else active_player_character self)
    /\ (alive h (active_player_character self) ->
        alive h (active_player_character self'))
    /\ active_enemy_character self' = active_enemy_character self
    /\ player_characters self' = player_characters self
    /\ enemies self' = enemies self
    /\ battle_log self' = battle_log self.
Proof.
  unfold switch_active_player_characters. run. rewrite is_alive_spec.
  case_bool_decide; do 2 eexists; (split; [reflexivity|]); split_and!; done.
Qed.

(** ** scenes.py *)

Lemma restore_stats_keeps_job_class
    (job_class_attributes : gmap string AttributeRow)
    (ascii_arts : gmap string (list string))
    (h : heap) (self : ref) (row : AttributeRow) (art : list string) :
  job_class_attributes !! job_class (h self) = Some row ->
  ascii_arts !! job_class (h self) = Some art ->
  exists h',
    restore_stats job_class_attributes ascii_arts self h = Ret tt h'
    /\ job_class (h' self) = job_class (h self)
    /\ health_points (h' self) = HP row
    /\ defense_points (h' self) = DP row
    /\ attack_points (h' self) = AP row
    /\ speed_points (h' self) = SP row
    /\ magic_points (h' self) = Some (MP row)
    /\ luck (h' self) = Luck row
    /\ (forall r, r <> self -> h' r = h r).
Proof.
  intros Hrow Hart.
  unfold restore_stats, _assign_job_class_attributes. run.
  rewrite Hrow. cbn. frame. rewrite Hart. cbn.
  repeat (rewrite heap_update_eq; cbn).
  eexists. split; [reflexivity|].
  split_and!; intros; heap_simpl; done.
Qed.

(** X20.  When the job class of every selected character that is alive has
    its entries in the catalog and in [ascii_arts],
    [restore_all_character_stats] returns; every selected character that was
    alive has the health, defense, attack, speed, magic and luck of its
    catalog row; and every other character, a defeated selected character
    included, is exactly as it was: the defeated are not revived. *)
Theorem restore_all_character_stats_spec
    (job_class_attributes : gmap string AttributeRow)
    (ascii_arts : gmap string (list string))
    (self : Scenes) (h : heap) :
  (forall r, r ∈ selected_characters self -> alive h r ->
     is_Some (job_class_attributes !! job_class (h r))
     /\ is_Some (ascii_arts !! job_class (h r))) ->
  exists h',
    restore_all_character_stats job_class_attributes ascii_arts self h = Ret tt h'
    /\ (forall r, r ∈ selected_characters self -> alive h r ->
          exists row,
            job_class_attributes !! job_class (h r) = Some row
            /\ health_points (h' r) = HP row
            /\ defense_points (h' r) = DP row
            /\ attack_points (h' r) = AP row
            /\ speed_points (h' r) = SP row
            /\ magic_points (h' r) = Some (MP row)
            /\ luck (h' r) = Luck row)
    /\ (forall r, ~ (r ∈ selected_characters self /\ alive h r) -> h' r = h r).
Proof.
  unfold restore_all_character_stats.
  generalize (selected_characters self) as characters. clear self.
  intros characters. revert h.
  induction characters as [|c rest IH]; intros h Hrows.
  - exists h. split; [reflexivity|]. split; [|done].
    intros r Hin. by apply elem_of_nil in Hin.
  - cbn [restore_each]. run. rewrite is_alive_spec.
    case_bool_decide as Hc.
    + destruct (Hrows c) as [[row Hrow] [art Hart]]; [left|done|].
      destruct (restore_stats_keeps_job_class _ _ h c row art Hrow Hart)
        as (h1 & Hrun & Hjob & Hhp & Hdp & Hap & Hsp & Hmp & Hluck & Hframe).
      rewrite Hrun.
      destruct (IH h1) as (h' & Hrest & Hdone & Hother).
      { intros r Hin Halive. destruct (decide (r = c)) as [->|Hne].
        - rewrite Hjob, Hrow, Hart. eauto.
        - rewrite Hframe in * by done. unfold alive in *.
          rewrite Hframe in Halive by done. apply Hrows; [by right|done]. }
      exists h'. split; [exact Hrest|]. split.
      * intros r Hin Halive. destruct (decide (r = c)) as [->|Hne].
        -- destruct (decide (c ∈ rest /\ alive h1 c)) as [[Hin' Halive']|Hno].
           ++ destruct (Hdone c Hin' Halive') as (row' & Hrow' & ?).
              rewrite Hjob in Hrow'. exists row'. done.
           ++ rewrite (Hother c Hno). exists row. done.
        -- apply elem_of_cons in Hin as [?|Hin]; [done|].
           assert (Halive' : alive h1 r) by (unfold alive in *; by rewrite Hframe).
           destruct (Hdone r Hin Halive') as (row' & Hrow' & ?).
           rewrite Hframe in Hrow' by done. exists row'. done.
      * intros r Hno. destruct (decide (r = c)) as [->|Hne].
        -- exfalso. apply Hno. split; [left|done].
        -- rewrite Hother, Hframe; [done|done|].
           intros [Hin Halive]. apply Hno. split; [by right|].
           unfold alive in *. by rewrite Hframe in Halive.
    + destruct (IH h) as (h' & Hrest & Hdone & Hother).
      { intros r Hin Halive. apply Hrows; [by right|done]. }
      exists h'. split; [exact Hrest|]. split.
      * intros r Hin Halive. apply elem_of_cons in Hin as [->|Hin]; [done|].
        by apply Hdone.
      * intros r Hno. apply Hother. intros [Hin Halive]. apply Hno.
        split; [by right|done].
Qed.

(** The Tank alone is selected; it comes back with the 100 health points of
    its row, and the enemy is as it was. *)
Lemma restore_all_character_stats_spec_witness :
  exists h',
    restore_all_character_stats sample_job_class_attributes sample_ascii_arts
      {| selected_characters := [0%nat] |} (arena []) = Ret tt h'
    /\ (exists row,
          sample_job_class_attributes !! job_class (arena [] 0%nat) = Some row
          /\ health_points (h' 0%nat) = HP row)
    /\ h' 1%nat = arena [] 1%nat.
Proof.
  destruct (restore_all_character_stats_spec
              sample_job_class_attributes sample_ascii_arts
              {| selected_characters := [0%nat] |} (arena []))
    as (h' & Hrun & Hdone & Hother).
  { intros r Hin _. apply list_elem_of_singleton in Hin. rewrite Hin.
    split; eexists; reflexivity. }
  exists h'. split_and!.
  - exact Hrun.
  - destruct (Hdone 0%nat) as (row & Hrow & Hhp & _).
    + apply list_elem_of_singleton. reflexivity.
    + reflexivity.
    + exists row. split; [exact Hrow | exact Hhp].
  - apply Hother. intros [Hin _]. apply list_elem_of_singleton in Hin. discriminate.
Defined.

Lemma alive_update_ne c set h r :
  r <> c -> alive (heap_update c set h) r <-> alive h r.
Proof. intros Hne. unfold alive. by rewrite heap_update_ne by congruence. Qed.

(** X21.  When no character is selected twice,
    [add_points_to_all_characters] returns; every selected character that
    was alive has the statistic raised by the amount, a statistic that the
    character lacked counting as 0; and every other character, a defeated
    selected character included, is exactly as it was. *)
Theorem add_points_to_all_characters_spec (self : Scenes) (s : stat) (amount : Z)
    (h : heap) :
  NoDup (selected_characters self) ->
  exists h',
    add_points_to_all_characters self s amount h = Ret tt h'
    /\ forall r,
         h' r
         = (if bool_decide (r ∈ selected_characters self /\ alive h r)
            then setattr_stat s (getattr_default s (h r) + amount) (h r)
            else h r).
Proof.
  unfold add_points_to_all_characters.
  generalize (selected_characters self) as characters. clear self.
  intros characters. revert h.
  induction characters as [|c rest IH]; intros h Hnodup.
  - exists h. split; [reflexivity|]. intros r.
    rewrite bool_decide_false; [done|]. intros [Hin _]. by apply elem_of_nil in Hin.
  - apply NoDup_cons in Hnodup as [Hc Hnodup].
    cbn [add_points_each]. run. rewrite is_alive_spec.
    case_bool_decide as Halive; cbn beta.
    + destruct (IH (heap_update c
                     (setattr_stat s (getattr_default s (h c) + amount)) h) Hnodup)
        as (h' & Hrest & Hh').
      exists h'. split; [exact Hrest|]. intros r. rewrite Hh'.
      destruct (decide (r = c)) as [->|Hne].
      * rewrite bool_decide_false by tauto.
        rewrite bool_decide_true by (split; [left|done]).
        by rewrite heap_update_eq.
      * pose proof (alive_update_ne c
                      (setattr_stat s (getattr_default s (h c) + amount)) h r Hne).
        repeat case_bool_decide; repeat rewrite heap_update_ne by congruence;
          try done; exfalso; rewrite elem_of_cons in *; tauto.
    + destruct (IH h Hnodup) as (h' & Hrest & Hh').
      exists h'. split; [exact Hrest|]. intros r. rewrite Hh'.
      destruct (decide (r = c)) as [->|Hne].
      * rewrite !bool_decide_false; [done| |]; tauto.
      * repeat case_bool_decide; try done; exfalso; rewrite elem_of_cons in *; tauto.
Qed.

(** The Tank and the MirrorMage receive 10 magic points. *)
Lemma add_points_to_all_characters_spec_witness :
  exists h',
    add_points_to_all_characters {| selected_characters := [0%nat; 2%nat] |}
      stat_magic_points 10 (arena []) = Ret tt h'
    /\ forall r,
         h' r
         = (if bool_decide (r ∈ [0%nat; 2%nat] /\ alive (arena []) r)
            then setattr_stat stat_magic_points
                   (getattr_default stat_magic_points (arena [] r) + 10) (arena [] r)
            else arena [] r).
Proof.
  apply (add_points_to_all_characters_spec
           {| selected_characters := [0%nat; 2%nat] |} stat_magic_points 10 (arena [])).
  apply NoDup_cons. split.
  - intros Hin. apply list_elem_of_singleton in Hin. discriminate.
  - apply NoDup_singleton.
Defined.

(** ** select_action *)

Lemma all_from_spec f x n :
  all_from f x n = true -> forall y, x <= y < x + Z.of_nat n -> f y = true.
Proof.
  revert x. induction n as [|n IH]; intros x Hall y Hy; [lia|].
  cbn [all_from] in Hall. apply andb_true_iff in Hall as [Hx Hrest].
  destruct (decide (y = x)) as [->|Hne]; [done|].
  apply (IH (Z.succ x)); [done|lia].
Qed.

Lemma int_lt_float_ceil x f c :
  ceil_float f = Some c -> int_lt_float x f = bool_decide (x < c).
Proof.
  destruct f as [s|s| |s m e]; cbn; try discriminate.
  - intros [= <-]. reflexivity.
  - case_bool_decide as He; intros [= <-]; [reflexivity|].
    apply bool_decide_ext.
    set (v := if s then Z.neg m else Z.pos m).
    assert (Hd : 0 < 2 ^ (- e)) by (apply Z.pow_pos_nonneg; lia).
    pose proof (Z.div_mod (- v) (2 ^ (- e))) as Hdiv.
    pose proof (Z.mod_pos_bound (- v) (2 ^ (- e)) Hd) as Hmod.
    nia.
Qed.

Lemma thresholds_checked :
  all_from (threshold_agrees float_0_2 1 5) 0 (Z.to_nat (max_checked + 1)) = true
  /\ all_from (threshold_agrees float_0_5 1 2) 0 (Z.to_nat (max_checked + 1)) = true.
Proof. split; vm_compute; reflexivity. Qed.

Lemma threshold_0_2 x max :
  0 <= max <= max_checked ->
  exists f, float_of_int max = Some f
            /\ int_lt_float x (float_mul float_0_2 f) = bool_decide (5 * x < max).
Proof.
  intros Hmax. destruct thresholds_checked as [Hall _].
  assert (Hok : threshold_agrees float_0_2 1 5 max = true).
  { apply (all_from_spec _ _ _ Hall). unfold max_checked in *. lia. }
  unfold threshold_agrees in Hok.
  destruct (float_of_int max) as [f|]; [|discriminate].
  exists f. split; [done|].
  apply bool_decide_eq_true in Hok.
  rewrite (int_lt_float_ceil _ _ _ Hok). apply bool_decide_ext.
  pose proof (Z.div_mod (- (1 * max)) 5) as Hdiv.
  pose proof (Z.mod_pos_bound (- (1 * max)) 5) as Hmod. lia.
Qed.

Lemma threshold_0_5 x max :
  0 <= max <= max_checked ->
  exists f, float_of_int max = Some f
            /\ int_lt_float x (float_mul float_0_5 f) = bool_decide (2 * x < max).
Proof.
  intros Hmax. destruct thresholds_checked as [_ Hall].
  assert (Hok : threshold_agrees float_0_5 1 2 max = true).
  { apply (all_from_spec _ _ _ Hall). unfold max_checked in *. lia. }
  unfold threshold_agrees in Hok.
  destruct (float_of_int max) as [f|]; [|discriminate].
  exists f. split; [done|].
  apply bool_decide_eq_true in Hok.
  rewrite (int_lt_float_ceil _ _ _ Hok). apply bool_decide_ext.
  pose proof (Z.div_mod (- (1 * max)) 2) as Hdiv.
  pose proof (Z.mod_pos_bound (- (1 * max)) 2) as Hmod. lia.
Qed.

(** X22.  For every enemy whose two maxima lie between 0 and 10000,
    [select_action] changes nothing and returns the attack on the active
    player when the player's health and defense together are below the
    enemy's attack points; otherwise [heal] when five times the enemy's
    health is below its maximum (the float test against [0.2 * max]);
    otherwise [defend] when twice its defense is below its maximum (the
    test against [0.5 * max]); otherwise the attack. *)
Theorem select_action_rules h self active_player max_hp max_dp :
  max_health_points (h self) = Some max_hp ->
  max_defense_points (h self) = Some max_dp ->
  0 <= max_hp <= max_checked ->
  0 <= max_dp <= max_checked ->
  select_action self active_player h
  = Ret (Selected
           (if bool_decide (health_points (h active_player)
                            + defense_points (h active_player)
                            < attack_points (h self))
            then BasicAttack active_player
            else if bool_decide (5 * health_points (h self) < max_hp) then Heal
            else if bool_decide (2 * defense_points (h self) < max_dp) then Defend
            else BasicAttack active_player)) h.
Proof.
  intros Hmax_hp Hmax_dp Hhp Hdp.
  destruct (threshold_0_2 (health_points (h self)) max_hp Hhp) as (fhp & Hfhp & Hlt_hp).
  destruct (threshold_0_5 (defense_points (h self)) max_dp Hdp) as (fdp & Hfdp & Hlt_dp).
  unfold select_action. run.
  destruct (decide (health_points (h active_player) + defense_points (h active_player)
                    < attack_points (h self))) as [Hweak|Hweak].
  { rewrite !(bool_decide_true (_ + _ < _)) by done. reflexivity. }
  rewrite !(bool_decide_false (_ + _ < _)) by done. cbn beta.
  rewrite Hmax_hp, Hfhp, Hlt_hp.
  destruct (decide (5 * health_points (h self) < max_hp)) as [Hlow|Hlow].
  { rewrite !(bool_decide_true (5 * _ < _)) by done. reflexivity. }
  rewrite !(bool_decide_false (5 * _ < _)) by done. cbn beta.
  rewrite Hmax_dp, Hfdp, Hlt_dp.
  destruct (bool_decide (2 * defense_points (h self) < max_dp)); reflexivity.
Qed.

(** The enemy at full health and full defense attacks the Tank. *)
Lemma select_action_rules_witness :
  select_action 1%nat 0%nat (arena [])
  = Ret (Selected (BasicAttack 0%nat)) (arena []).
Proof.
  apply (select_action_rules (arena []) 1%nat 0%nat 60 5);
    [reflexivity | reflexivity | unfold max_checked; lia | unfold max_checked; lia].
Defined.

(** X23.  When the active player's health and defense together are below
    the enemy's attack points, [select_action] returns the attack on that
    player; and when the player is alive, has no negative defense and holds
    no effect, that attack leaves the player not alive, whatever the roll,
    critical or not. *)
Theorem select_action_finishes_weak_player h self active_player roll hp_increase :
  health_points (h active_player) + defense_points (h active_player)
  < attack_points (h self) ->
  select_action self active_player h = Ret (Selected (BasicAttack active_player)) h
  /\ (alive h active_player ->
      0 <= defense_points (h active_player) ->
      no_active_effects (h active_player) ->
      exists log h',
        call_action self (BasicAttack active_player) roll hp_increase h = Ret log h'
        /\ ~ alive h' active_player).
Proof.
  intros Hweak. split.
  - unfold select_action. run. rewrite bool_decide_true by done. reflexivity.
  - intros Halive Hdp Hnone. unfold alive in *. cbn [call_action].
    destruct (basic_attack_unprotected_heap h self active_player roll Hnone)
      as (log & Hrun).
    do 2 eexists. split; [exact Hrun|].
    heap_simpl. case_bool_decide; lia.
Qed.

(** The Tank is down to 5 health points and 3 of defense; the enemy attacks
    with 12. *)
Lemma select_action_finishes_weak_player_witness :
  select_action 1%nat 0%nat (heap_update 0%nat (set_health_points 5) (arena []))
  = Ret (Selected (BasicAttack 0%nat))
      (heap_update 0%nat (set_health_points 5) (arena []))
  /\ exists log h',
       call_action 1%nat (BasicAttack 0%nat) 50 1
         (heap_update 0%nat (set_health_points 5) (arena [])) = Ret log h'
       /\ ~ alive h' 0%nat.
Proof.
  destruct (select_action_finishes_weak_player
              (heap_update 0%nat (set_health_points 5) (arena [])) 1%nat 0%nat 50 1)
    as [Hselect Hkill]; [vm_compute; reflexivity|].
  split; [exact Hselect|].
  apply Hkill; [vm_compute; reflexivity | vm_compute; discriminate | right; reflexivity].
Defined.

(** ** restore_stats with a missing entry *)

(** X24.  [restore_stats] on a character whose job class has no row in the
    catalog raises [KeyError] and changes nothing; when the row exists and
    the entry of [ascii_arts] is missing, it raises [KeyError] after it has
    assigned the two maxima, the attack, the speed, the magic points and the
    luck of the row, and before it restores [health_points] and
    [defense_points], which keep their values. *)
Theorem restore_stats_missing_entry
    (job_class_attributes : gmap string AttributeRow)
    (ascii_arts : gmap string (list string)) (h : heap) (self : ref) :
  (job_class_attributes !! job_class (h self) = None ->
   restore_stats job_class_attributes ascii_arts self h
   = Raise (KeyError (job_class (h self))) h)
  /\ (forall row,
        job_class_attributes !! job_class (h self) = Some row ->
        ascii_arts !! job_class (h self) = None ->
        exists h',
          restore_stats job_class_attributes ascii_arts self h
          = Raise (KeyError (job_class (h self))) h'
          /\ attack_points (h' self) = AP row
          /\ speed_points (h' self) = SP row
          /\ magic_points (h' self) = Some (MP row)
          /\ luck (h' self) = Luck row
          /\ max_health_points (h' self) = Some (HP row)
          /\ max_defense_points (h' self) = Some (DP row)
          /\ health_points (h' self) = health_points (h self)
          /\ defense_points (h' self) = defense_points (h self)).
Proof.
  split.
  - intros Hrow. unfold restore_stats, _assign_job_class_attributes. run.
    rewrite Hrow. reflexivity.
  - intros row Hrow Hart. unfold restore_stats, _assign_job_class_attributes. run.
    rewrite Hrow. cbn. frame. rewrite Hart.
    eexists. split; [reflexivity|].
    split_and!; heap_simpl; done.
Qed.

(** ** scenes.py: the second scene *)

(** X25.  On the two paths of [scene_two] that lead to the second fight
    (The Whispering Caverns and The Enchanted Meadows), once the preparation
    of the path, the new enemy and the fight have returned, [scene_two]
    returns [True], the sign of a game over, exactly when the player won the
    fight, the last screen being the lore of the victory; when the player
    lost it goes on to the lore of The Misty Peaks and returns [None]. *)
Theorem scene_two_game_over
    (job_class_attributes : gmap string AttributeRow)
    (ascii_arts : gmap string (list string))
    (new_enemy : string -> M ref) (start_combat : list ref -> list ref -> M bool)
    (self : Scenes) (flash : bool) (selected_option : path) (out : list screen)
    (h h1 h2 h3 : heap) (enemy : ref) (player_won : bool) :
  selected_option <> TheMistyPeaks ->
  (match selected_option with
   | TheWhisperingCaverns =>
       restore_all_character_stats job_class_attributes ascii_arts self
   | _ => add_points_to_all_characters self stat_magic_points 10
   end) h = Ret tt h1 ->
  new_enemy "Doomshroud" h1 = Ret enemy h2 ->
  start_combat (selected_characters self) [enemy] h2 = Ret player_won h3 ->
  exists out',
    scene_two job_class_attributes ascii_arts new_enemy start_combat
      self flash selected_option out h
    = Ret (if player_won then Some true else None, out') h3
    /\ last out'
       = Some (Lore (if player_won then SECOND_COMBAT_WIN
                     else SCENE_TWO_OPTION_TWO 0)).
Proof.
  intros Hpath Hprepare Henemy Hcombat.
  destruct selected_option; [|done|];
    unfold scene_two, option_one_scene, option_three_scene, second_combat_scene,
      option_two_scene; run;
    rewrite Hprepare, Henemy, Hcombat;
    destruct player_won; cbn;
    eexists; (split; [reflexivity|]); by rewrite last_snoc.
Qed.

(** A fight that the player wins, on the path of The Whispering Caverns,
    with nobody selected. *)
Lemma scene_two_game_over_witness :
  exists out',
    scene_two sample_job_class_attributes sample_ascii_arts
      (fun _ => mret 1%nat) (fun _ _ => mret true)
      {| selected_characters := [] |} true TheWhisperingCaverns [] (arena [])
    = Ret (Some true, out') (arena [])
    /\ last out' = Some (Lore SECOND_COMBAT_WIN).
Proof.
  apply (scene_two_game_over sample_job_class_attributes sample_ascii_arts
           (fun _ => mret 1%nat) (fun _ _ => mret true)
           {| selected_characters := [] |} true TheWhisperingCaverns []
           (arena []) (arena []) (arena []) (arena []) 1%nat true);
    [discriminate | reflexivity | reflexivity | reflexivity].
Defined.
